(** * Rowboat agent orchestrator: a shallow embedding of [app/lib/agents.ts]

    The development follows the source file top to bottom: the JavaScript
    values the code manipulates, the message and workflow records, the tool
    handlers, the helpers of the turn loop, the loop itself, and then the
    properties of the specification. *)

From Stdlib Require Import ZArith String List Lia.
From stdpp Require Import gmap strings list fin_maps pretty.

Local Open Scope Z_scope.

(** ** JavaScript values *)

Module Js.

(** [s ? a : b] on a string: only the empty string is falsy. *)
Definition truthy (s : string) : bool := negb (String.eqb s "").

(** [a || b] on strings. *)
Definition or_else (a b : string) : string := if truthy a then a else b.

(** [o || b] where [o] may be [undefined] or [null]. *)
Definition opt_or (o : option string) (b : string) : string :=
  match o with
  | Some a => or_else a b
  | None => b
  end.

(** The line feed written [\n] in the source's template literals. *)
Definition nl : string := String (Ascii.ascii_of_nat 10) EmptyString.

(** A thrown [Error]-like object, with the two fields [toString] reads. *)
Record Error := mkError { err_name : string; err_message : string }.

(** [new Error(msg)] *)
Definition new_Error (msg : string) : Error := mkError "Error" msg.

(** [`${error}`], that is [Error.prototype.toString]. *)
Definition toString (e : Error) : string :=
  if negb (truthy (err_name e)) then err_message e
  else if negb (truthy (err_message e)) then err_name e
  else err_name e +:+ ": " +:+ err_message e.

(** The JSON values that reach [JSON.stringify] in this file.
    [JUndefined] stands for a property whose value is [undefined]. *)
#[local] Unset Elimination Schemes.
Inductive Json :=
| JUndefined
| JNull
| JBool (b : bool)
| JNum (n : Z)
| JStr (s : string)
| JArr (items : list Json)
| JObj (fields : list (string * Json)).
#[local] Set Elimination Schemes.

(** The outcome of an awaited call: a value, or a thrown error. *)
Inductive Result (A : Type) :=
| Ok (a : A)
| Throw (e : Error).
Arguments Ok {A} a.
Arguments Throw {A} e.

Definition bind {A B} (r : Result A) (k : A -> Result B) : Result B :=
  match r with
  | Ok a => k a
  | Throw e => Throw e
  end.

(** [try { body } catch (error) { handler(error) }] *)
Definition try_catch {A} (body : Result A) (handler : Error -> Result A) : Result A :=
  match body with
  | Ok a => Ok a
  | Throw e => handler e
  end.

Definition is_ok {A} (r : Result A) : bool :=
  match r with Ok _ => true | Throw _ => false end.

End Js.

Import Js.

(** [x ← await c; k] uses stdpp's monad notation. *)
#[global] Instance Result_ret : MRet Result := @Ok.
#[global] Instance Result_bind : MBind Result :=
  fun A B (k : A -> Result B) (r : Result A) => Js.bind r k.

(** ** Messages ([types/types.ts]) *)

Inductive ResponseType := internal_response | external_response.

(** [{ id, type: 'function', function: { name, arguments } }] *)
Record ToolCall := mkToolCall {
  tc_id : string;
  tc_name : string;
  tc_arguments : string
}.

(** Modelled from the spec: the [Message] union of [types/types.ts], whose
    declaration is not among the sources.  Section 3 of the specification
    lists its variants; the assistant message with [content: null] is the
    variant carrying tool calls.  [agentName] is nullable: the code tests it
    for truthiness in [createAgentCallStack]. *)
Inductive Message :=
| SystemMessage (content : string)
| UserMessage (content : string)
| AssistantMessage (content : string) (agentName : option string)
    (responseType : ResponseType)
| AssistantMessageWithToolCalls (toolCalls : list ToolCall)
    (agentName : option string)
| ToolMessage (content toolCallId toolName : string).

Inductive Role := system | user | assistant | tool.

Definition role (m : Message) : Role :=
  match m with
  | SystemMessage _ => system
  | UserMessage _ => user
  | AssistantMessage _ _ _ | AssistantMessageWithToolCalls _ _ => assistant
  | ToolMessage _ _ _ => tool
  end.

(** [msg.content], [None] standing for [null]. *)
Definition content (m : Message) : option string :=
  match m with
  | SystemMessage c | UserMessage c | AssistantMessage c _ _
  | ToolMessage c _ _ => Some c
  | AssistantMessageWithToolCalls _ _ => None
  end.

(** [msg.agentName], [None] when the field is null or the variant lacks it. *)
Definition agentNameOf (m : Message) : option string :=
  match m with
  | AssistantMessage _ a _ | AssistantMessageWithToolCalls _ a => a
  | _ => None
  end.

Definition role_eqb (a b : Role) : bool :=
  match a, b with
  | system, system | user, user | assistant, assistant | tool, tool => true
  | _, _ => false
  end.

(** ** Usage events *)

(** [{ total, prompt, completion }].  Token counts are integers far below
    2^53, where JavaScript number addition is exact, hence [Z]. *)
Record Usage := mkUsage { total : Z; prompt : Z; completion : Z }.

(** What [streamResponse] yields: [ZOutMessage | ZUsage]. *)
Inductive OutEvent :=
| EvMessage (m : Message)
| EvUsage (tokens : Usage).

(** ** [ensureSystemMessage] *)

Definition DEFAULT_SYSTEM_PROMPT : string := "You are a helpful assistant.".

(** The first [if]: [messages.unshift(...)] when the list is non-empty and
    does not start with a system message. *)
Definition ensureSystemMessage_unshift (messages : list Message) : list Message :=
  match messages with
  | m :: _ =>
      if role_eqb (role m) system then messages
      else SystemMessage DEFAULT_SYSTEM_PROMPT :: messages
  | [] => messages
  end.

(** The second [if]: a blank leading system message gets the default text. *)
Definition ensureSystemMessage_fill (messages : list Message) : list Message :=
  match messages with
  | SystemMessage c :: rest =>
      if negb (truthy c) then SystemMessage DEFAULT_SYSTEM_PROMPT :: rest
      else messages
  | _ => messages
  end.

(** The array is mutated in place in the source; here the new array is
    returned. *)
Definition ensureSystemMessage (messages : list Message) : list Message :=
  ensureSystemMessage_fill (ensureSystemMessage_unshift messages).

(** ** [convertMsgsInput] *)

(** The three shapes of [AgentInputItem] the conversion builds. *)
Inductive AgentInputItem :=
| InputAssistant (output_text : string)   (* status: 'completed' *)
| InputUser (content : string)
| InputSystem (content : string).

(** [`${msg.agentName}`]: a null name prints as [null]. *)
Definition show_agentName (a : option string) : string :=
  match a with
  | Some n => n
  | None => "null"
  end.

Definition senderBlock (a : option string) (c : string) : string :=
  "Sender agent: " +:+ show_agentName a +:+ nl +:+ "Content: " +:+ c.

(** One turn of the [for] loop: the items pushed for [msg]. *)
Definition convertMsg (msg : Message) : list AgentInputItem :=
  match msg with
  | AssistantMessage c a _ =>
      if truthy c then [InputAssistant (senderBlock a c)] else []
  | AssistantMessageWithToolCalls _ _ => []
  | UserMessage c => [InputUser c]
  | SystemMessage c => [InputSystem c]
  | ToolMessage _ _ _ => []
  end.

Fixpoint convertMsgsInput (messages : list Message) : list AgentInputItem :=
  match messages with
  | [] => []
  | msg :: rest => convertMsg msg ++ convertMsgsInput rest
  end.

(** ** Workflow configuration ([types/workflow_types.ts]) *)

Inductive OutputVisibility := user_facing | internal.

Inductive RagReturnType := chunks | content_docs.

(** Modelled from the spec: the [WorkflowAgent] record, declared outside the
    sources; section 3 of the specification gives its fields.  Optional
    fields are options. *)
Record WorkflowAgent := mkWorkflowAgent {
  wa_name : string;
  wa_description : string;
  wa_instructions : string;
  wa_examples : option string;
  wa_model : string;
  wa_outputVisibility : OutputVisibility;
  wa_ragDataSources : option (list string);
  wa_ragReturnType : option RagReturnType;
  wa_ragK : option Z
}.

(** [composioData: { slug, toolkitSlug, noAuth }] *)
Record ComposioData := mkComposioData {
  cd_slug : string;
  cd_toolkitSlug : string;
  cd_noAuth : bool
}.

(** Modelled from the spec: the [WorkflowTool] record, with the markers the
    code dispatches on.  [wt_parameters] keeps the JSON schema as a value. *)
Record WorkflowTool := mkWorkflowTool {
  wt_name : string;
  wt_description : string;
  wt_parameters : Json;
  wt_mockTool : bool;
  wt_mockInstructions : option string;
  wt_isMcp : bool;
  wt_mcpServerName : option string;
  wt_mcpServerURL : option string;
  wt_isComposio : bool;
  wt_composioData : option ComposioData
}.

(** [{ name, type, prompt }]; [type] is compared with ['greeting']. *)
Record WorkflowPrompt := mkWorkflowPrompt {
  wp_name : string;
  wp_type : string;
  wp_prompt : string
}.

Record Workflow := mkWorkflow {
  projectId : string;
  wf_name : string;
  startAgent : string;
  wf_agents : list WorkflowAgent;
  wf_tools : list WorkflowTool;
  wf_prompts : list WorkflowPrompt
}.

(** A mention resolved by [sanitizeTextWithMentions]. *)
Inductive EntityType := entity_agent | entity_tool | entity_prompt.
Record ConnectedEntity := mkEntity { ce_type : EntityType; ce_name : string }.

(** ** Records held by the external stores *)

(** A row of [dataSourcesCollection]. *)
Record DataSource := mkDataSource {
  ds_id : string;
  ds_projectId : string;
  ds_active : bool
}.

(** A row of [dataSourceDocsCollection]. *)
Record DataSourceDoc := mkDoc { doc_id : string; doc_content : string }.

(** The payload of an embedding point, which is also what the RAG tool
    returns. *)
Record RagResult := mkRagResult {
  rr_title : string;
  rr_name : string;
  rr_content : string;
  rr_docId : string;
  rr_sourceId : string
}.

(** A project row, as far as [invokeComposioTool] reads it:
    [composioConnectedAccounts?.[toolkitSlug]?.id]. *)
Record Project := mkProject {
  composioConnectedAccounts : option (gmap string string)
}.

(** ** A runtime tool and a runtime agent of the agents SDK *)

(** [tool({ name, description, parameters, execute })] *)
Record Tool := mkTool {
  tool_name : string;
  tool_description : string;
  tool_execute : Json -> Result string
}.

(** [new Agent({ name, instructions, tools, model, modelSettings })] with
    the [handoffs] set afterwards; hand-off targets are kept by name. *)
Record Agent := mkAgent {
  agent_name : string;
  agent_instructions : string;
  agent_tools : list Tool;
  agent_model : string;
  agent_temperature : Z;
  agent_handoffs : list string
}.

(** ** Events streamed by the provider ([run(agent, inputs, { stream: true })]) *)

(** An entry of [event.data.response.output]. *)
Inductive ResponseOutput :=
| FunctionCallOutput (callId name arguments : string)   (* type: 'function_call' *)
| OtherOutput.

(** [event.data.response.usage] *)
Record ResponseUsage := mkResponseUsage {
  totalTokens : Z;
  inputTokens : Z;
  outputTokens : Z
}.

(** [event.data] of a [raw_model_stream_event]. *)
Inductive RawModelData :=
| ResponseDone (output : list ResponseOutput) (usage : ResponseUsage)
| OtherRawData.

Inductive ItemStatus := completed | in_progress | incomplete.

(** [rawItem.output] of a tool-call result. *)
Inductive ToolCallOutput :=
| TextOutput (text : string)      (* type: 'text' *)
| NonTextOutput.

(** An entry of [rawItem.content] of a message item. *)
Inductive MessageContent :=
| OutputText (text : string)      (* type: 'output_text' *)
| OtherContent.

(** [event.item] of a [run_item_stream_event], with the raw item the code
    inspects. *)
Inductive RunItem :=
| HandoffOutputItem (targetAgent : string)
| ToolCallOutputItem_functionCallResult (status : ItemStatus)
    (output : ToolCallOutput) (callId name : string)
| ToolCallOutputItem_other
| MessageOutputItem_message (status : ItemStatus) (content : list MessageContent)
| MessageOutputItem_other
| OtherItem.

Inductive StreamEvent :=
| RawModelStreamEvent (data : RawModelData)
| RunItemStreamEvent (name : string) (item : RunItem)
| AgentUpdatedStreamEvent.

(** What [for await (const event of result)] sees of one provider run: the
    events, then either the end of the stream or an error thrown by the
    provider or the transport. *)
Record RunStream := mkRunStream {
  rs_events : list StreamEvent;
  rs_throws : option Error
}.

(** ** The external collaborators

    Everything the module imports and calls but does not define: the
    runtime's [JSON.stringify] and [crypto.randomUUID] (the n-th identifier
    drawn), the text and embedding models, the stores, the MCP and Composio
    clients, the mention resolver and instruction constants, and the
    provider's [run], indexed by the iteration of the turn loop that calls
    it. *)
Record World := mkWorld {
  JSON_stringify : Json -> string;
  randomUUID : nat -> string;
  MODEL : string;
  generateText : string -> string -> string -> Result string;
  embed : string -> Result (list Z);
  dataSourcesCollection : Result (list DataSource);
  qdrantClient_query : list Z -> string -> list string -> Z -> Result (list RagResult);
  dataSourceDocsCollection_find : list string -> Result (list DataSourceDoc);
  getMcpClient : string -> string -> Result nat;
  client_callTool : nat -> string -> Json -> Result Json;
  client_close : nat -> Result unit;
  projectsCollection_findOne : string -> Result (option Project);
  composio_tools_execute : string -> string -> Json -> option string -> Result Json;
  sanitizeTextWithMentions :
    string -> Workflow -> list WorkflowTool -> string * list ConnectedEntity;
  RECOMMENDED_PROMPT_PREFIX : string;
  CHILD_TRANSFER_RELATED_INSTRUCTIONS : string;
  RAG_INSTRUCTIONS : string -> string;
  run : nat -> Agent -> list AgentInputItem -> RunStream
}.

(** ** Tool invocation helpers *)

Section Tools.

Context (w : World).

Definition invokeMockTool (toolName args description mockInstructions : string)
  : Result string :=
  let system_content :=
    "You are simulating the execution of a tool called '" +:+ toolName
    +:+ "'. Here is the description of the tool: " +:+ description
    +:+ ". Here are the instructions for the mock tool: " +:+ mockInstructions
    +:+ ". Generate a realistic response as if the tool was actually executed with the given parameters." in
  let user_content :=
    "Generate a realistic response for the tool '" +:+ toolName
    +:+ "' with these parameters: " +:+ args
    +:+ ". The response should be concise and focused on what the tool would actually return." in
  text ← generateText w (MODEL w) system_content user_content;
  mret text.

(** [dataSourcesCollection.find({ projectId, active: true }).toArray()] *)
Definition dataSourcesCollection_find (pid : string) : Result (list DataSource) :=
  rows ← dataSourcesCollection w;
  mret (List.filter (fun s => String.eqb (ds_projectId s) pid && ds_active s) rows).

(** [sourceIds.includes(id)] *)
Definition includes (sourceIds : list string) (id : string) : bool :=
  existsb (String.eqb id) sourceIds.

Definition validSourceIds (sourceIds : list string) (sources : list DataSource)
  : list string :=
  map ds_id
    (List.filter ds_active
       (List.filter (fun s => includes sourceIds (ds_id s)) sources)).

(** [{ ...r, content: doc?.content || '' }] *)
Definition withDocContent (docs : list DataSourceDoc) (r : RagResult) : RagResult :=
  let doc := List.find (fun d => String.eqb (doc_id d) (rr_docId r)) docs in
  mkRagResult (rr_title r) (rr_name r)
    (match doc with Some d => or_else (doc_content d) "" | None => "" end)
    (rr_docId r) (rr_sourceId r).

Definition invokeRagTool (pid query : string) (sourceIds : list string)
    (returnType : RagReturnType) (k : Z) : Result (list RagResult) :=
  embedding ← embed w query;
  sources ← dataSourcesCollection_find pid;
  let valid := validSourceIds sourceIds sources in
  if Nat.eqb (length valid) 0 then mret []
  else
    points ← qdrantClient_query w embedding pid valid k;
    let results := points in
    match returnType with
    | chunks => mret results
    | content_docs =>
        docs ← dataSourceDocsCollection_find w (map rr_docId results);
        mret (map (withDocContent docs) results)
    end.

Definition invokeMcpTool (pid name : string) (input : Json)
    (mcpServerURL mcpServerName : string) : Result Json :=
  client ← getMcpClient w mcpServerURL (or_else mcpServerName "");
  result ← client_callTool w client name input;
  _ ← client_close w client;
  mret result.

Definition invokeComposioTool (pid name : string) (composioData : ComposioData)
    (input : Json) : Result Json :=
  connectedAccountId ←
    (if negb (cd_noAuth composioData) then
       project ← projectsCollection_findOne w pid;
       match project with
       | None => Throw (new_Error ("project " +:+ pid +:+ " not found"))
       | Some p =>
           let id := accounts ← composioConnectedAccounts p;
                     accounts !! cd_toolkitSlug composioData in
           match id with
           | Some i =>
               if truthy i then Ok (Some i)
               else Throw (new_Error ("connected account id not found for project "
                      +:+ pid +:+ " and toolkit " +:+ cd_toolkitSlug composioData))
           | None =>
               Throw (new_Error ("connected account id not found for project "
                      +:+ pid +:+ " and toolkit " +:+ cd_toolkitSlug composioData))
           end
       end
     else Ok None);
  data ← composio_tools_execute w (cd_slug composioData) pid input connectedAccountId;
  mret data.

End Tools.

(** ** [Record<string, V>] objects

    A JavaScript object used as a dictionary keeps its string keys in
    insertion order, and [Object.entries] enumerates them in that order
    (keys that look like array indices apart, which agent and tool names
    are not).  Writing an existing key keeps its position. *)
Module JsObject.

Definition t (V : Type) : Type := list (string * V).

Definition empty {V} : t V := [].

(** [obj[k]] *)
Fixpoint get {V} (obj : t V) (k : string) : option V :=
  match obj with
  | [] => None
  | (k', v) :: rest => if String.eqb k' k then Some v else get rest k
  end.

(** [obj[k] = v], also [{ ...obj, [k]: v }] *)
Fixpoint set {V} (obj : t V) (k : string) (v : V) : t V :=
  match obj with
  | [] => [(k, v)]
  | (k', v') :: rest =>
      if String.eqb k' k then (k', v) :: rest else (k', v') :: set rest k v
  end.

(** [Object.entries(obj)] *)
Definition entries {V} (obj : t V) : list (string * V) := obj.

End JsObject.

(** ** Tool handlers *)

Section ToolRegistry.

Context (w : World).

(** [input.query] of an input validated against [{ query: string }]. *)
Definition input_query (input : Json) : string :=
  match input with
  | JObj (("query"%string, JStr q) :: _) => q
  | _ => ""
  end.

Definition ragResult_json (r : RagResult) : Json :=
  JObj [("title", JStr (rr_title r)); ("name", JStr (rr_name r));
        ("content", JStr (rr_content r)); ("docId", JStr (rr_docId r));
        ("sourceId", JStr (rr_sourceId r))]%string.

(** [config.ragDataSources?.length], as a condition. *)
Definition has_ragDataSources (config : WorkflowAgent) : bool :=
  match wa_ragDataSources config with
  | Some (_ :: _) => true
  | _ => false
  end.

(** [config.ragK || 3] *)
Definition ragK_or_3 (config : WorkflowAgent) : Z :=
  match wa_ragK config with
  | Some k => if k =? 0 then 3 else k
  | None => 3
  end.

Definition createRagTool (config : WorkflowAgent) (pid : string) : Result Tool :=
  if negb (has_ragDataSources config) then
    Throw (new_Error ("data sources not found for agent " +:+ wa_name config))
  else
    Ok (mkTool "rag_search" (wa_description config)
          (fun input =>
             results ← invokeRagTool w pid (input_query input)
                         (default [] (wa_ragDataSources config))
                         (default chunks (wa_ragReturnType config))
                         (ragK_or_3 config);
             mret (JSON_stringify w
                     (JObj [("results"%string, JArr (map ragResult_json results))])))).

Definition createMockTool (config : WorkflowTool) : Tool :=
  mkTool (wt_name config) (wt_description config)
    (fun input =>
       try_catch
         (result ← invokeMockTool w (wt_name config) (JSON_stringify w input)
                     (wt_description config)
                     (opt_or (wt_mockInstructions config) "");
          mret (JSON_stringify w (JObj [("result"%string, JStr result)])))
         (fun error =>
            mret (JSON_stringify w
                    (JObj [("error"%string,
                            JStr ("Mock tool execution failed: " +:+ toString error))])))).

Definition createMcpTool (config : WorkflowTool) (pid : string) : Tool :=
  mkTool (wt_name config) (wt_description config)
    (fun input =>
       try_catch
         (result ← invokeMcpTool w pid (wt_name config) input
                     (opt_or (wt_mcpServerURL config) "")
                     (opt_or (wt_mcpServerName config) "");
          mret (JSON_stringify w (JObj [("result"%string, result)])))
         (fun error =>
            mret (JSON_stringify w
                    (JObj [("error"%string,
                            JStr ("Tool execution failed: " +:+ toString error))])))).

Definition createComposioTool (config : WorkflowTool) (pid : string) : Result Tool :=
  match wt_composioData config with
  | None => Throw (new_Error ("composio data not found for tool " +:+ wt_name config))
  | Some composioData =>
      Ok (mkTool (wt_name config) (wt_description config)
            (fun input =>
               try_catch
                 (result ← invokeComposioTool w pid (wt_name config) composioData input;
                  mret (JSON_stringify w (JObj [("result"%string, result)])))
                 (fun error =>
                    mret (JSON_stringify w
                            (JObj [("error"%string,
                                    JStr ("Tool execution failed: " +:+ toString error))])))))
  end.

(** One turn of the [for] loop of [createTools]. *)
Definition createTools_step (workflow : Workflow) (tools : JsObject.t Tool)
    (entry : string * WorkflowTool) : Result (JsObject.t Tool) :=
  let '(toolName, config) := entry in
  if wt_isMcp config then
    mret (JsObject.set tools toolName (createMcpTool config (projectId workflow)))
  else if wt_isComposio config then
    t ← createComposioTool config (projectId workflow);
    mret (JsObject.set tools toolName t)
  else if wt_mockTool config then
    mret (JsObject.set tools toolName (createMockTool config))
  else mret tools.

Definition createTools (workflow : Workflow) (toolConfig : JsObject.t WorkflowTool)
  : Result (JsObject.t Tool) :=
  foldl (fun acc entry => tools ← acc; createTools_step workflow tools entry)
        (Ok JsObject.empty) (JsObject.entries toolConfig).

End ToolRegistry.

(** ** [mapConfig] *)

Definition agentConfigOf (workflow : Workflow) : JsObject.t WorkflowAgent :=
  foldl (fun acc agent => JsObject.set acc (wa_name agent) agent)
        JsObject.empty (wf_agents workflow).

Definition toolConfigOf (workflow : Workflow) (projectTools : list WorkflowTool)
  : JsObject.t WorkflowTool :=
  foldl (fun acc t => JsObject.set acc (wt_name t) t)
        JsObject.empty (wf_tools workflow ++ projectTools).

Definition promptConfigOf (workflow : Workflow) : JsObject.t WorkflowPrompt :=
  foldl (fun acc p => JsObject.set acc (wp_name p) p)
        JsObject.empty (wf_prompts workflow).

(** ** Agents *)

Section AgentGraph.

Context (w : World).

(** ['-'.repeat(100)] and the like. *)
Definition repeat_string (s : string) (n : nat) : string :=
  Nat.iter n (fun acc => s +:+ acc) ""%string.

Definition is_tool_entity (e : ConnectedEntity) : bool :=
  match ce_type e with entity_tool => true | _ => false end.

Definition is_agent_entity (e : ConnectedEntity) : bool :=
  match ce_type e with entity_agent => true | _ => false end.

(** The template literal that opens [createAgent]. *)
Definition composeInstructions (config : WorkflowAgent) : string :=
  RECOMMENDED_PROMPT_PREFIX w +:+ nl +:+ nl
  +:+ "## Your Name" +:+ nl +:+ wa_name config +:+ nl +:+ nl
  +:+ "## Description" +:+ nl +:+ wa_description config +:+ nl +:+ nl
  +:+ "## Instructions" +:+ nl +:+ wa_instructions config +:+ nl +:+ nl
  +:+ match wa_examples config with
      | Some ex => if truthy ex then "# Examples" +:+ nl +:+ ex else ""
      | None => ""
      end +:+ nl +:+ nl
  +:+ repeat_string "-" 100 +:+ nl +:+ nl
  +:+ CHILD_TRANSFER_RELATED_INSTRUCTIONS w +:+ nl.

Definition createAgent (config : WorkflowAgent) (tools : JsObject.t Tool)
    (projectTools : list WorkflowTool) (workflow : Workflow)
  : Result (Agent * list ConnectedEntity) :=
  let instructions := composeInstructions config in
  let '(sanitized, entities) :=
    sanitizeTextWithMentions w instructions workflow projectTools in
  let agentTools :=
    omap (fun e => JsObject.get tools (ce_name e))
         (List.filter is_tool_entity entities) in
  '(agentTools, sanitized) ←
    (if has_ragDataSources config then
       ragTool ← createRagTool w config (projectId workflow);
       mret (agentTools ++ [ragTool],
             sanitized +:+ nl +:+ nl +:+ repeat_string "-" 100 +:+ nl +:+ nl
             +:+ RAG_INSTRUCTIONS w (tool_name ragTool))
     else mret (agentTools, sanitized));
  mret (mkAgent (wa_name config) sanitized agentTools (wa_model config) 0 [],
        entities).

(** [agent.handoffs = ...]: the agent with its hand-offs replaced. *)
Definition set_handoffs (a : Agent) (hs : list string) : Agent :=
  mkAgent (agent_name a) (agent_instructions a) (agent_tools a)
          (agent_model a) (agent_temperature a) hs.

(** The first loop of [createAgents]. *)
Definition createAgents_build (workflow : Workflow)
    (agentConfig : JsObject.t WorkflowAgent) (tools : JsObject.t Tool)
    (projectTools : list WorkflowTool)
  : Result (JsObject.t Agent * JsObject.t (list ConnectedEntity)) :=
  foldl (fun acc entry =>
           '(agents, mentions) ← acc;
           '(agent, entities) ← createAgent entry.2 tools projectTools workflow;
           mret (JsObject.set agents entry.1 agent,
                 JsObject.set mentions entry.1 entities))
        (Ok (JsObject.empty, JsObject.empty)) (JsObject.entries agentConfig).

(** The second loop: hand-offs are wired once every agent exists. *)
Definition createAgents_wire (agents : JsObject.t Agent)
    (mentions : JsObject.t (list ConnectedEntity)) : JsObject.t Agent :=
  map (fun entry : string * Agent =>
         let connectedAgentNames :=
           map ce_name
               (List.filter is_agent_entity
                  (default [] (JsObject.get mentions entry.1))) in
         (entry.1,
          set_handoffs entry.2
            (List.filter (fun e => bool_decide (is_Some (JsObject.get agents e)))
                         connectedAgentNames)))
      agents.

Definition createAgents (workflow : Workflow)
    (agentConfig : JsObject.t WorkflowAgent) (tools : JsObject.t Tool)
    (projectTools : list WorkflowTool)
  : Result (JsObject.t Agent * JsObject.t (list ConnectedEntity)) :=
  '(agents, mentions) ← createAgents_build workflow agentConfig tools projectTools;
  mret (createAgents_wire agents mentions, mentions).

End AgentGraph.

(** ** Helpers of the turn loop *)

(** [stack.pop()]: the last element, removed. *)
Definition stack_pop (stack : list string) : option string * list string :=
  (last stack, removelast stack).

(** [stack.push(x)] *)
Definition stack_push (stack : list string) (x : string) : list string :=
  stack ++ [x].

(** [stack.pop() || workflow.startAgent]; the popped array is returned with
    the name, since the source mutates it. *)
Definition getNextAgentName (stack : list string) (workflow : Workflow)
  : string * list string :=
  let '(top, stack') := stack_pop stack in
  (opt_or top (startAgent workflow), stack').

(** The [n]-th identifier drawn names the call of the pair. *)
Definition createTransferEvents (w : World) (n : nat) (fromAgent toAgent : string)
  : Message * Message :=
  let toolCallId := randomUUID w n in
  let payload := JSON_stringify w (JObj [("assistant"%string, JStr toAgent)]) in
  (AssistantMessageWithToolCalls
     [mkToolCall toolCallId "transfer_to_agent" payload] (Some fromAgent),
   ToolMessage payload toolCallId "transfer_to_agent").

Module AgentTransferCounter.

Definition key (fromAgent toAgent : string) : string :=
  fromAgent +:+ ":" +:+ toAgent.

Definition increment (calls : gmap string nat) (fromAgent toAgent : string)
  : gmap string nat :=
  <[key fromAgent toAgent := (default 0 (calls !! key fromAgent toAgent) + 1)%nat]> calls.

Definition get (calls : gmap string nat) (fromAgent toAgent : string) : nat :=
  default 0%nat (calls !! key fromAgent toAgent).

End AgentTransferCounter.

Module UsageTracker.

(** [new UsageTracker()] *)
Definition new : Usage := mkUsage 0 0 0.

Definition increment (u : Usage) (t p c : Z) : Usage :=
  mkUsage (total u + t) (prompt u + p) (completion u + c).

Definition asEvent (u : Usage) : OutEvent := EvUsage u.

End UsageTracker.

Definition DEFAULT_GREETING : string := "How can I help you today?".

(** [workflow.prompts.find(p => p.type === 'greeting')?.prompt || '...'] *)
Definition greetingPrompt (workflow : Workflow) : string :=
  opt_or (wp_prompt <$> List.find (fun p => String.eqb (wp_type p) "greeting")
                                  (wf_prompts workflow))
         DEFAULT_GREETING.

Definition emitGreetingTurn (workflow : Workflow) : list OutEvent :=
  [EvMessage (AssistantMessage (greetingPrompt workflow)
                (Some (startAgent workflow)) external_response);
   UsageTracker.asEvent UsageTracker.new].

(** One turn of the loop of [createAgentCallStack]. *)
Definition callStack_step (stack : list string) (msg : Message) : list string :=
  match role msg, agentNameOf msg with
  | assistant, Some a =>
      if truthy a then
        if bool_decide (last stack = Some a) then stack else stack_push stack a
      else stack
  | _, _ => stack
  end.

Definition createAgentCallStack (messages : list Message) : list string :=
  foldl callStack_step [] messages.

(** ** The turn loop of [streamResponse] *)

(** The variables of [streamResponse] that the loop mutates.  [uuidsDrawn]
    counts the calls of [crypto.randomUUID] so far. *)
Record LoopState := mkLoopState {
  turnMsgs : list Message;
  stack : list string;
  agentName : string;
  transferCounter : gmap string nat;
  usageTracker : Usage;
  uuidsDrawn : nat
}.

(** How the handling of one event leaves the [for await] loop: on to the
    next event, or [continue turnLoop]. *)
Inductive Control := NextEvent | ContinueTurnLoop.

Section TurnLoop.

Context (w : World) (workflow : Workflow).
Context (agentConfig : JsObject.t WorkflowAgent) (agents : JsObject.t Agent).

(** [agentConfig[name]?.outputVisibility === v] *)
Definition visibility_is (name : string) (v : OutputVisibility) : bool :=
  match JsObject.get agentConfig name with
  | Some c =>
      match wa_outputVisibility c, v with
      | user_facing, user_facing | internal, internal => true
      | _, _ => false
      end
  | None => false
  end.

(** [turnMsgs.push(m); yield* emitEvent(m)] *)
Definition push_emit (st : LoopState) (m : Message) : LoopState * list OutEvent :=
  (mkLoopState (turnMsgs st ++ [m]) (stack st) (agentName st)
               (transferCounter st) (usageTracker st) (uuidsDrawn st),
   [EvMessage m]).

(** The transfer block shared by the hand-off branch and the internal
    re-entry: both messages pushed and emitted, the counter incremented,
    [current] pushed on the stack [stack0], [next] made active. *)
Definition transfer (st : LoopState) (stack0 : list string)
    (current next : string) : LoopState * list OutEvent :=
  let '(transferStart, transferComplete) :=
    createTransferEvents w (uuidsDrawn st) current next in
  (mkLoopState (turnMsgs st ++ [transferStart; transferComplete])
               (stack_push stack0 current)
               next
               (AgentTransferCounter.increment (transferCounter st) current next)
               (usageTracker st)
               (S (uuidsDrawn st)),
   [EvMessage transferStart; EvMessage transferComplete]).

(** [name.startsWith('transfer_to')] *)
Definition startsWith_transfer_to (name : string) : bool :=
  String.prefix "transfer_to" name.

(** The [for (const output of ...)] loop of the [response_done] case. *)
Fixpoint onResponseOutputs (st : LoopState) (outputs : list ResponseOutput)
  : LoopState * list OutEvent :=
  match outputs with
  | [] => (st, [])
  | FunctionCallOutput callId name arguments :: rest =>
      if negb (startsWith_transfer_to name) then
        let '(st1, out1) :=
          push_emit st (AssistantMessageWithToolCalls
                          [mkToolCall callId name arguments]
                          (Some (agentName st))) in
        let '(st2, out2) := onResponseOutputs st1 rest in
        (st2, out1 ++ out2)
      else onResponseOutputs st rest
  | OtherOutput :: rest => onResponseOutputs st rest
  end.

Definition onRawModelStreamEvent (st : LoopState) (data : RawModelData)
  : LoopState * list OutEvent :=
  match data with
  | ResponseDone output usage =>
      let '(st1, out1) := onResponseOutputs st output in
      (mkLoopState (turnMsgs st1) (stack st1) (agentName st1)
                   (transferCounter st1)
                   (UsageTracker.increment (usageTracker st1)
                      (totalTokens usage) (inputTokens usage) (outputTokens usage))
                   (uuidsDrawn st1),
       out1)
  | OtherRawData => (st, [])
  end.

(** The first [if] of the [run_item_stream_event] case.  [None] is the
    [break] taken when the target is the active agent. *)
Definition onHandoff (st : LoopState) (name : string) (item : RunItem)
  : option (LoopState * list OutEvent) :=
  match item with
  | HandoffOutputItem targetAgent =>
      if String.eqb name "handoff_occurred" then
        if String.eqb (agentName st) targetAgent then None
        else Some (transfer st (stack st) (agentName st) targetAgent)
      else Some (st, [])
  | _ => Some (st, [])
  end.

(** The second [if]: a completed tool call with a text output. *)
Definition onToolCallOutput (st : LoopState) (item : RunItem)
  : LoopState * list OutEvent :=
  match item with
  | ToolCallOutputItem_functionCallResult completed (TextOutput text) callId name =>
      push_emit st (ToolMessage text callId name)
  | _ => (st, [])
  end.

(** The [for (const content of ...)] loop of the third [if]. *)
Fixpoint onMessageContents (st : LoopState) (isInternal : bool)
    (contents : list MessageContent) : LoopState * list OutEvent :=
  match contents with
  | [] => (st, [])
  | OutputText text :: rest =>
      let '(st1, out1) :=
        push_emit st (AssistantMessage text (Some (agentName st))
                        (if isInternal then internal_response
                         else external_response)) in
      let '(st2, out2) := onMessageContents st1 isInternal rest in
      (st2, out1 ++ out2)
  | OtherContent :: rest => onMessageContents st isInternal rest
  end.

(** The third [if]: a completed message of the model, and the switch back
    to the previous agent when the active one is internal. *)
Definition onMessageOutput (st : LoopState) (item : RunItem)
  : LoopState * list OutEvent * Control :=
  match item with
  | MessageOutputItem_message completed contents =>
      let isInternal := visibility_is (agentName st) internal in
      let '(st1, out1) := onMessageContents st isInternal contents in
      if isInternal then
        let current := agentName st1 in
        let '(next, stack1) := getNextAgentName (stack st1) workflow in
        let '(st2, out2) := transfer st1 stack1 current next in
        (st2, out1 ++ out2, ContinueTurnLoop)
      else (st1, out1, NextEvent)
  | _ => (st, [], NextEvent)
  end.

(** The body of [for await (const event of result)]: the [switch]. *)
Definition handleEvent (st : LoopState) (event : StreamEvent)
  : LoopState * list OutEvent * Control :=
  match event with
  | RawModelStreamEvent data =>
      let '(st1, out1) := onRawModelStreamEvent st data in
      (st1, out1, NextEvent)
  | RunItemStreamEvent name item =>
      match onHandoff st name item with
      | None => (st, [], NextEvent)
      | Some (st1, out1) =>
          let '(st2, out2) := onToolCallOutput st1 item in
          let '(st3, out3, control) := onMessageOutput st2 item in
          (st3, out1 ++ out2 ++ out3, control)
      end
  | AgentUpdatedStreamEvent => (st, [], NextEvent)
  end.

(** What one pass over a provider stream leaves behind: the state, the
    events emitted, the stream events read, and whether the pass ended
    with the stream or by [continue turnLoop]. *)
Record StreamPass := mkStreamPass {
  sp_state : LoopState;
  sp_emitted : list OutEvent;
  sp_read : list StreamEvent;
  sp_control : Control
}.

Fixpoint processEvents (st : LoopState) (events : list StreamEvent) : StreamPass :=
  match events with
  | [] => mkStreamPass st [] [] NextEvent
  | event :: rest =>
      let '(st1, out1, control) := handleEvent st event in
      match control with
      | ContinueTurnLoop => mkStreamPass st1 out1 [event] ContinueTurnLoop
      | NextEvent =>
          let p := processEvents st1 rest in
          mkStreamPass (sp_state p) (out1 ++ sp_emitted p)
                       (event :: sp_read p) (sp_control p)
      end
  end.

(** The test that closes an iteration: the last message is a text of the
    active, user-facing agent. *)
Definition lastMessageCompletesTurn (st : LoopState) : bool :=
  visibility_is (agentName st) user_facing &&
  match last (turnMsgs st) with
  | Some (AssistantMessage _ (Some a) _) => String.eqb a (agentName st)
  | _ => false
  end.

(** How a run of the loop ends: [break turnLoop], an uncaught error, or
    the iteration budget of the model exhausted with the loop still
    running. *)
Inductive Outcome :=
| TurnComplete
| Thrown (e : Error)
| StillRunning.

Record LoopRun := mkLoopRun {
  lr_outcome : Outcome;
  lr_emitted : list OutEvent;
  lr_read : list StreamEvent;
  lr_state : LoopState;
  lr_iter : nat
}.

(** A run that first emitted [out] and read [evs], then went on as [r]. *)
Definition after (out : list OutEvent) (evs : list StreamEvent) (r : LoopRun)
  : LoopRun :=
  mkLoopRun (lr_outcome r) (out ++ lr_emitted r) (evs ++ lr_read r)
            (lr_state r) (lr_iter r).

(** [turnLoop: while (true) { ... }], unfolded at most [fuel] times.
    [iter] is the source's counter before its increment. *)
Fixpoint turnLoop (fuel : nat) (iter : nat) (st : LoopState) : LoopRun :=
  match fuel with
  | O => mkLoopRun StillRunning [] [] st iter
  | S fuel' =>
      let iter := S iter in
      match JsObject.get agents (agentName st) with
      | None =>
          mkLoopRun (Thrown (new_Error "agent not found in agent config!"))
                    [] [] st iter
      | Some agent =>
          let inputs := convertMsgsInput (turnMsgs st) in
          let result := run w iter agent inputs in
          let p := processEvents st (rs_events result) in
          match sp_control p with
          | ContinueTurnLoop =>
              after (sp_emitted p) (sp_read p) (turnLoop fuel' iter (sp_state p))
          | NextEvent =>
              match rs_throws result with
              | Some e =>
                  mkLoopRun (Thrown e) (sp_emitted p) (sp_read p) (sp_state p) iter
              | None =>
                  if lastMessageCompletesTurn (sp_state p) then
                    mkLoopRun TurnComplete (sp_emitted p) (sp_read p)
                              (sp_state p) iter
                  else
                    after (sp_emitted p) (sp_read p)
                          (turnLoop fuel' iter (sp_state p))
              end
          end
      end
  end.

End TurnLoop.

(** ** [streamResponse] *)

(** What a caller observes of one invocation: how the generator ended, the
    events it yielded, and the provider events it read. *)
Record Invocation := mkInvocation {
  inv_outcome : Outcome;
  inv_events : list OutEvent;
  inv_read : list StreamEvent
}.

(** [messages.length === 1 && messages[0]?.role === 'system'] *)
Definition onlySystemMessage (messages : list Message) : bool :=
  match messages with
  | [m] => role_eqb (role m) system
  | _ => false
  end.

(** The loop variables as they stand when [turnLoop] is entered. *)
Definition initialState (workflow : Workflow) (messages : list Message) : LoopState :=
  let stack := createAgentCallStack messages in
  let '(agentName, stack) := getNextAgentName stack workflow in
  mkLoopState messages stack agentName ∅ UsageTracker.new 0%nat.

Definition streamResponse (w : World) (fuel : nat) (workflow : Workflow)
    (projectTools : list WorkflowTool) (messages : list Message) : Invocation :=
  let messages := ensureSystemMessage messages in
  if onlySystemMessage messages then
    mkInvocation TurnComplete (emitGreetingTurn workflow) []
  else
    let agentConfig := agentConfigOf workflow in
    let toolConfig := toolConfigOf workflow projectTools in
    match createTools w workflow toolConfig with
    | Throw e => mkInvocation (Thrown e) [] []
    | Ok tools =>
        match createAgents w workflow agentConfig tools projectTools with
        | Throw e => mkInvocation (Thrown e) [] []
        | Ok (agents, _) =>
            let r := turnLoop w workflow agentConfig agents fuel 0%nat
                              (initialState workflow messages) in
            match lr_outcome r with
            | TurnComplete =>
                mkInvocation TurnComplete
                  (lr_emitted r ++ [UsageTracker.asEvent (usageTracker (lr_state r))])
                  (lr_read r)
            | o => mkInvocation o (lr_emitted r) (lr_read r)
            end
        end
    end.

(** ** Notions the properties are stated with *)

(** The result content a tool handler is specified to return for the
    outcome [r] of its underlying invocation: the value wrapped as
    [{ result }], or the message of the error as [{ error }]. *)
Definition toolResultContent {A} (w : World) (failure : string) (wrap : A -> Json)
    (r : Result A) : string :=
  match r with
  | Ok a => JSON_stringify w (JObj [("result"%string, wrap a)])
  | Throw e => JSON_stringify w (JObj [("error"%string, JStr (failure +:+ toString e))])
  end.

(** The usage block a stream event contributes to the totals: that of a
    completed response, nothing otherwise. *)
Definition usageDelta (event : StreamEvent) : Usage :=
  match event with
  | RawModelStreamEvent (ResponseDone _ usage) =>
      mkUsage (totalTokens usage) (inputTokens usage) (outputTokens usage)
  | _ => mkUsage 0 0 0
  end.

Definition usage_add (a b : Usage) : Usage :=
  mkUsage (total a + total b) (prompt a + prompt b) (completion a + completion b).

(** The componentwise sum of the usage blocks of [events]. *)
Definition usageSum (events : list StreamEvent) : Usage :=
  foldr (fun e acc => usage_add (usageDelta e) acc) (mkUsage 0 0 0) events.

(** Componentwise order on usage totals. *)
Definition usage_le (a b : Usage) : Prop :=
  total a <= total b /\ prompt a <= prompt b /\ completion a <= completion b.

Definition usage_nonneg (u : Usage) : Prop :=
  0 <= total u /\ 0 <= prompt u /\ 0 <= completion u.

(** The completion condition in the words of the specification: the active
    agent is configured user-facing, and the last message of the transcript
    is an assistant message with non-null content whose agent name is the
    active agent. *)
Definition TurnCompletionCondition (agentConfig : JsObject.t WorkflowAgent)
    (st : LoopState) : Prop :=
  (exists c, JsObject.get agentConfig (agentName st) = Some c
             /\ wa_outputVisibility c = user_facing)
  /\ exists m, last (turnMsgs st) = Some m
               /\ role m = assistant
               /\ content m <> None
               /\ agentNameOf m = Some (agentName st).

(** An emitted event that carries a message, as opposed to a usage
    snapshot. *)
Definition isMessageEvent (e : OutEvent) : Prop :=
  match e with
  | EvMessage _ => True
  | EvUsage _ => False
  end.

(** A stream event that is neither a hand-off nor a message of the model:
    raw model events, tool-call outputs and the like. *)
Definition quiet (event : StreamEvent) : bool :=
  match event with
  | RunItemStreamEvent _ (HandoffOutputItem _) => false
  | RunItemStreamEvent _ (MessageOutputItem_message _ _) => false
  | _ => true
  end.

(** ** A concrete world for the examples

    [JSON.stringify] without escaping, numbered identifiers, stores that
    answer, and a provider whose stream depends on the agent's name only. *)
Module Examples.

(** The double quote, character 34. *)
Definition dq : string := String (Ascii.ascii_of_nat 34) EmptyString.

Fixpoint stringify (fuel : nat) (j : Json) : string :=
  match fuel with
  | O => ""
  | S fuel' =>
      match j with
      | JUndefined => ""
      | JNull => "null"
      | JBool true => "true"
      | JBool false => "false"
      | JNum n => pretty n
      | JStr s => dq +:+ s +:+ dq
      | JArr items =>
          "[" +:+ String.concat "," (map (stringify fuel') items) +:+ "]"
      | JObj fields =>
          "{" +:+ String.concat ","
                    (map (fun kv : string * Json =>
                            dq +:+ kv.1 +:+ dq +:+ ":" +:+ stringify fuel' kv.2)
                         fields) +:+ "}"
      end
  end.

Definition world_of (provider : string -> list StreamEvent)
    (embedding : Result (list Z)) (sources : Result (list DataSource))
    (points : Result (list RagResult)) : World :=
  {| JSON_stringify := stringify 8;
     randomUUID := fun n => "uuid-" +:+ pretty n;
     MODEL := "gpt-4o";
     generateText := fun _ _ _ => Ok "mocked"%string;
     embed := fun _ => embedding;
     dataSourcesCollection := sources;
     qdrantClient_query := fun _ _ _ _ => points;
     dataSourceDocsCollection_find := fun _ => Ok [];
     getMcpClient := fun _ _ => Ok 0%nat;
     client_callTool := fun _ _ _ => Ok JNull;
     client_close := fun _ => Ok ();
     projectsCollection_findOne := fun _ => Ok None;
     composio_tools_execute := fun _ _ _ _ => Ok JNull;
     sanitizeTextWithMentions := fun text _ _ => (text, []);
     RECOMMENDED_PROMPT_PREFIX := "";
     CHILD_TRANSFER_RELATED_INSTRUCTIONS := "";
     RAG_INSTRUCTIONS := fun name => name;
     run := fun _ agent _ => mkRunStream (provider (agent_name agent)) None |}.

Definition world (provider : string -> list StreamEvent) : World :=
  world_of provider (Ok [1; 2; 3]) (Ok []) (Ok []).

Definition agent (name : string) (v : OutputVisibility) : WorkflowAgent :=
  mkWorkflowAgent name "" "" None "gpt-4o" v None None None.

Definition says (text : string) : StreamEvent :=
  RunItemStreamEvent "message_output_created"
    (MessageOutputItem_message completed [OutputText text]).

Definition hands_off_to (target : string) : StreamEvent :=
  RunItemStreamEvent "handoff_occurred" (HandoffOutputItem target).

Definition response_done (t p c : Z) : StreamEvent :=
  RawModelStreamEvent (ResponseDone [] (mkResponseUsage t p c)).

(** Scenario of section 8: internal [A] hands off to user-facing [B]. *)
Definition handoff_workflow : Workflow :=
  mkWorkflow "proj" "handoff" "A" [agent "A" internal; agent "B" user_facing] [] [].

Definition handoff_provider (name : string) : list StreamEvent :=
  if String.eqb name "A" then [hands_off_to "B"] else [says "done"].

(** A delegation chain: user-facing [P] hands off to internal [X], which
    hands off to internal [Y], which answers. *)
Definition chain_workflow : Workflow :=
  mkWorkflow "proj" "chain" "P"
    [agent "P" user_facing; agent "X" internal; agent "Y" internal] [] [].

Definition chain_provider (name : string) : list StreamEvent :=
  if String.eqb name "P" then [hands_off_to "X"]
  else if String.eqb name "X" then [hands_off_to "Y"]
  else [says "done"].

(** Two agents that keep handing control to each other: user-facing [A]
    always hands off to internal [B], and [B] always answers, which sends
    control back to [A]. *)
Definition pingpong_workflow : Workflow :=
  mkWorkflow "proj" "pingpong" "A" [agent "A" user_facing; agent "B" internal] [] [].

Definition pingpong_provider (name : string) : list StreamEvent :=
  if String.eqb name "A" then [hands_off_to "B"] else [says "back to you"].

Definition hello : list Message := [SystemMessage "Be brief."; UserMessage "Hi"].

(** The data sources of the store: [src-1] is switched off, [src-2] is
    active, and another project has an active [src-1] of its own. *)
Definition sources : list DataSource :=
  [mkDataSource "src-1" "proj" false; mkDataSource "src-2" "proj" true;
   mkDataSource "src-1" "other" true].

(** A world whose vector store is unreachable. *)
Definition world_qdrant_down : World :=
  world_of (fun _ => []) (Ok [1; 2; 3]) (Ok sources)
           (Throw (mkError "Error" "vector store unreachable")).

(** A world whose embedding model is unreachable. *)
Definition world_embed_down : World :=
  world_of (fun _ => []) (Throw (mkError "Error" "embedding request failed"))
           (Ok sources) (Ok []).

(** An agent with one configured data source, [src-1]. *)
Definition rag_agent : WorkflowAgent :=
  mkWorkflowAgent "Librarian" "searches the manuals" "" None "gpt-4o"
    user_facing (Some ["src-1"%string]) None None.

(** A Composio tool whose auth metadata is missing, and one that has it. *)
Definition broken_composio_tool : WorkflowTool :=
  mkWorkflowTool "send_mail" "sends a mail" JNull false None false None None true None.

Definition composio_tool : WorkflowTool :=
  mkWorkflowTool "send_mail" "sends a mail" JNull false None false None None true
    (Some (mkComposioData "GMAIL_SEND" "gmail" false)).

Definition greeting_workflow : Workflow :=
  mkWorkflow "proj" "greeter" "A" [agent "A" user_facing] [broken_composio_tool]
    [mkWorkflowPrompt "style" "style_prompt" "Be kind.";
     mkWorkflowPrompt "hello" "greeting" "Welcome!"].

(** A single user-facing agent that answers at once. *)
Definition greeter_workflow : Workflow :=
  mkWorkflow "proj" "greeter" "A" [agent "A" user_facing] [] [].

Definition greeter_provider (name : string) : list StreamEvent :=
  [response_done 10 7 3; says "Hello"].

(** The agent graph [streamResponse] builds for a workflow without project
    tools. *)
Definition agents_of (w : World) (workflow : Workflow) : JsObject.t Agent :=
  match createTools w workflow (toolConfigOf workflow []) with
  | Ok tools =>
      match createAgents w workflow (agentConfigOf workflow) tools [] with
      | Ok (agents, _) => agents
      | Throw _ => []
      end
  | Throw _ => []
  end.

(** The loop of the hand-off scenario from [st], and the pass over the
    stream of its first agent. *)
Definition handoff_run (fuel : nat) (st : LoopState) : LoopRun :=
  turnLoop (world handoff_provider) handoff_workflow (agentConfigOf handoff_workflow)
    (agents_of (world handoff_provider) handoff_workflow) fuel 0%nat st.

Definition handoff_agent_A : Agent :=
  default (mkAgent "" "" [] "" 0 [])
    (JsObject.get (agents_of (world handoff_provider) handoff_workflow) "A").

Definition handoff_pass (st : LoopState) : StreamPass :=
  processEvents (world handoff_provider) handoff_workflow
    (agentConfigOf handoff_workflow) st
    (rs_events (run (world handoff_provider) 1 handoff_agent_A
                  (convertMsgsInput (turnMsgs st)))).

(** The loop of the delegation chain, run for [fuel] iterations. *)
Definition chain_run (fuel : nat) : LoopRun :=
  turnLoop (world chain_provider) chain_workflow (agentConfigOf chain_workflow)
    (agents_of (world chain_provider) chain_workflow) fuel 0%nat
    (initialState chain_workflow hello).

Definition pingpong_world : World := world pingpong_provider.

Definition pingpong_agents : JsObject.t Agent :=
  agents_of pingpong_world pingpong_workflow.

End Examples.

(** ** [getResponse] *)

(** [{ messages, usage }] *)
Record Response := mkResponse {
  resp_messages : list Message;
  resp_usage : Usage
}.

(** One turn of [for await (const event of streamResponse(...))]: an
    event with the assistant role is pushed, an event with [tokens]
    replaces the usage. *)
Definition getResponse_step (acc : Response) (event : OutEvent) : Response :=
  match event with
  | EvMessage m =>
      if role_eqb (role m) assistant
      then mkResponse (resp_messages acc ++ [m]) (resp_usage acc)
      else acc
  | EvUsage u => mkResponse (resp_messages acc) u
  end.

(** The promise [getResponse] returns: resolved with the response,
    rejected with the error [streamResponse] threw, or still pending when
    the iterations of the model run out. *)
Inductive Promise (A : Type) :=
| Resolved (a : A)
| Rejected (e : Error)
| Pending.
Arguments Resolved {A} a.
Arguments Rejected {A} e.
Arguments Pending {A}.

Definition getResponse (w : World) (fuel : nat) (workflow : Workflow)
    (projectTools : list WorkflowTool) (messages : list Message)
  : Promise Response :=
  let inv := streamResponse w fuel workflow projectTools messages in
  match inv_outcome inv with
  | TurnComplete =>
      Resolved (foldl getResponse_step (mkResponse [] (mkUsage 0 0 0))
                      (inv_events inv))
  | Thrown e => Rejected e
  | StillRunning => Pending
  end.

(** ** Further notions the properties are stated with *)

(** The messages among emitted events, in order. *)
Definition messagesOf (events : list OutEvent) : list Message :=
  omap (fun e => match e with EvMessage m => Some m | EvUsage _ => None end) events.

(** The agent name a transcript message contributes to the call stack:
    that of an assistant message, when it is not empty. *)
Definition speaker (m : Message) : option string :=
  match role m, agentNameOf m with
  | assistant, Some a => if truthy a then Some a else None
  | _, _ => None
  end.

(** No two neighbours of the list are equal. *)
Definition NoAdjacentRepeat (l : list string) : Prop :=
  forall i a b, l !! i = Some a -> l !! S i = Some b -> a <> b.

(** The colon, character 58, and the strings that hold none. *)
Definition colon : Ascii.ascii := Ascii.ascii_of_nat 58.

Fixpoint noColon (s : string) : bool :=
  match s with
  | EmptyString => true
  | String c s' => negb (Ascii.eqb c colon) && noColon s'
  end.

(** A tool configuration one of the three branches of [createTools]
    takes. *)
Definition supportedTool (c : WorkflowTool) : bool :=
  wt_isMcp c || wt_isComposio c || wt_mockTool c.

(** A tool configuration that reaches [createComposioTool] without its
    [composioData]. *)
Definition lacksComposioData (c : WorkflowTool) : bool :=
  negb (wt_isMcp c) && wt_isComposio c
  && match wt_composioData c with None => true | Some _ => false end.

(** An emitted assistant message names its author, and a text message is
    labelled internal exactly when the configuration of its author says
    so. *)
Definition wellLabelled (agentConfig : JsObject.t WorkflowAgent) (e : OutEvent) : Prop :=
  match e with
  | EvMessage (AssistantMessage _ a rt) =>
      exists n, a = Some n
        /\ rt = if visibility_is agentConfig n internal then internal_response
                else external_response
  | EvMessage (AssistantMessageWithToolCalls _ a) => exists n, a = Some n
  | _ => True
  end.

(** A tool-call record of the synthetic transfer tool. *)
Definition isTransferCall (e : OutEvent) : Prop :=
  match e with
  | EvMessage (AssistantMessageWithToolCalls [c] _) =>
      tc_name c = "transfer_to_agent"%string
  | _ => False
  end.

(** Emitted events in which every transfer call is followed at once by
    its result, bearing the same call id and payload, and nothing else is
    a transfer call. *)
Inductive Paired : list OutEvent -> Prop :=
| Paired_nil : Paired []
| Paired_other (e : OutEvent) (l : list OutEvent) :
    ~ isTransferCall e -> Paired l -> Paired (e :: l)
| Paired_transfer (id payload : string) (author : option string) (l : list OutEvent) :
    Paired l ->
    Paired (EvMessage (AssistantMessageWithToolCalls
                         [mkToolCall id "transfer_to_agent" payload] author)
            :: EvMessage (ToolMessage payload id "transfer_to_agent") :: l).

(** ** More examples *)

Module Scenarios.

(** A hit of the vector search in the active data source [src-2]. *)
Definition hit : RagResult :=
  mkRagResult "Refunds" "refunds.md" "Refunds take five days." "doc-1" "src-2".

(** A world whose vector store answers with that hit; its document store
    holds no document. *)
Definition rag_world : World :=
  Examples.world_of (fun _ => []) (Ok [1; 2; 3]) (Ok Examples.sources) (Ok [hit]).

(** An agent that calls a tool, reads its result and answers. *)
Definition tool_provider (name : string) : list StreamEvent :=
  [RawModelStreamEvent
     (ResponseDone [FunctionCallOutput "call-1" "lookup" "{}"]
                   (mkResponseUsage 12 9 3));
   RunItemStreamEvent "tool_output"
     (ToolCallOutputItem_functionCallResult completed (TextOutput "42")
        "call-1" "lookup");
   Examples.says "The answer is 42."].

(** The runtime agent built for the single agent of the greeter workflow. *)
Definition greeter_agent : Agent :=
  default (mkAgent "" "" [] "" 0 [])
    (JsObject.get (Examples.agents_of (Examples.world tool_provider)
                     Examples.greeter_workflow) "A").

End Scenarios.

(** * Properties *)

(** ** The system message *)

Lemma truthy_false_iff (s : string) : truthy s = false <-> s = ""%string.
Proof.
  unfold truthy. destruct (String.eqb_spec s ""); simpl; split; congruence.
Qed.

Lemma role_eqb_eq (a b : Role) : role_eqb a b = true <-> a = b.
Proof. destruct a, b; simpl; split; congruence. Qed.

Lemma ensureSystemMessage_head (m : Message) (rest : list Message) :
  role <$> head (ensureSystemMessage (m :: rest)) = Some system.
Proof.
  unfold ensureSystemMessage, ensureSystemMessage_unshift.
  destruct m as [c| | | |]; simpl; try reflexivity.
  destruct (truthy c); reflexivity.
Qed.

(** C3: a transcript whose first message is not a system message gets
    exactly one default system message in front, so that its first role is
    [system] afterwards; a leading system message with empty content has its
    content replaced by the same default, the rest of the transcript being
    kept as it is. *)
Theorem ensureSystemMessage_repairs (m : Message) (rest : list Message) :
  (role m <> system ->
     ensureSystemMessage (m :: rest)
       = SystemMessage "You are a helpful assistant." :: m :: rest)
  /\ (forall c, m = SystemMessage c -> truthy c = false ->
        ensureSystemMessage (m :: rest)
          = SystemMessage "You are a helpful assistant." :: rest)
  /\ role <$> head (ensureSystemMessage (m :: rest)) = Some system.
Proof.
  split; [|split].
  - intros Hrole. unfold ensureSystemMessage, ensureSystemMessage_unshift.
    destruct m; simpl; try reflexivity. now contradict Hrole.
  - intros c -> Hc. unfold ensureSystemMessage. simpl. now rewrite Hc.
  - apply ensureSystemMessage_head.
Qed.

Lemma ensureSystemMessage_repairs_witness :
  ensureSystemMessage [UserMessage "Hi"]
    = [SystemMessage "You are a helpful assistant."; UserMessage "Hi"]
  /\ ensureSystemMessage [SystemMessage ""; UserMessage "Hi"]
    = [SystemMessage "You are a helpful assistant."; UserMessage "Hi"].
Proof.
  split.
  - apply (ensureSystemMessage_repairs (UserMessage "Hi") []). discriminate.
  - apply (proj1 (proj2 (ensureSystemMessage_repairs (SystemMessage "")
                           [UserMessage "Hi"])) ""); reflexivity.
Defined.

(** ** The provider input *)

Lemma convertMsgsInput_app (a b : list Message) :
  convertMsgsInput (a ++ b) = convertMsgsInput a ++ convertMsgsInput b.
Proof.
  induction a as [|m a IH]; simpl; [reflexivity|].
  now rewrite IH, app_assoc.
Qed.

Lemma convertMsg_elem (x : AgentInputItem) (m : Message) :
  x ∈ convertMsg m <->
    (exists c, x = InputSystem c /\ m = SystemMessage c)
    \/ (exists c, x = InputUser c /\ m = UserMessage c)
    \/ (exists c a rt, x = InputAssistant (senderBlock a c)
                       /\ m = AssistantMessage c a rt /\ c <> ""%string).
Proof.
  destruct m as [c|c|c a rt|tcs a|c i n]; simpl.
  - rewrite list_elem_of_singleton. split.
    + intros ->. left. eauto.
    + intros [(c' & -> & [= ->])|[(c' & _ & [=])|(c' & a & rt & _ & [=] & _)]].
      reflexivity.
  - rewrite list_elem_of_singleton. split.
    + intros ->. right. left. eauto.
    + intros [(c' & _ & [=])|[(c' & -> & [= ->])|(c' & a & rt & _ & [=] & _)]].
      reflexivity.
  - destruct (truthy c) eqn:Hc.
    + rewrite list_elem_of_singleton. split.
      * intros ->. right. right. exists c, a, rt. repeat split.
        intros ->. discriminate.
      * intros [(c' & _ & [=])|[(c' & _ & [=])|(c' & a' & rt' & -> & [= -> -> ->] & _)]].
        reflexivity.
    + apply truthy_false_iff in Hc. subst c. split.
      * intros H. inversion H.
      * intros [(c' & _ & [=])|[(c' & _ & [=])|(c' & a' & rt' & _ & [= <- _ _] & Hne)]].
        now contradict Hne.
  - split.
    + intros H. inversion H.
    + intros [(c' & _ & [=])|[(c' & _ & [=])|(c' & a' & rt' & _ & [=] & _)]].
  - split.
    + intros H. inversion H.
    + intros [(c' & _ & [=])|[(c' & _ & [=])|(c' & a' & rt' & _ & [=] & _)]].
Qed.

(** C10: the provider input holds nothing but the system messages, the user
    messages (both verbatim) and the assistant messages with content, the
    latter rewritten as the text block [Sender agent: X], line feed,
    [Content: Y]; a tool message or an assistant message with null content
    leaves no trace in it. *)
Theorem convertMsgsInput_forwards (messages : list Message) :
  (forall x, x ∈ convertMsgsInput messages <->
     (exists c, x = InputSystem c /\ SystemMessage c ∈ messages)
     \/ (exists c, x = InputUser c /\ UserMessage c ∈ messages)
     \/ (exists c a rt,
           x = InputAssistant ("Sender agent: " +:+ show_agentName a +:+ nl
                               +:+ "Content: " +:+ c)
           /\ AssistantMessage c a rt ∈ messages /\ c <> ""%string))
  /\ (forall pre m post,
        messages = pre ++ m :: post ->
        role m = tool \/ (role m = assistant /\ content m = None) ->
        convertMsgsInput messages = convertMsgsInput (pre ++ post)).
Proof.
  split.
  - intros x. induction messages as [|m ms IH]; simpl.
    + split.
      * intros H. inversion H.
      * intros [(c & _ & H)|[(c & _ & H)|(c & a & rt & _ & H & _)]]; inversion H.
    + rewrite elem_of_app, IH, convertMsg_elem. clear IH.
      setoid_rewrite elem_of_cons. fold (senderBlock). split.
      * intros [[(c & -> & ->)|[(c & -> & ->)|(c & a & rt & -> & -> & Hc)]]
               |[(c & -> & Hin)|[(c & -> & Hin)|(c & a & rt & -> & Hin & Hc)]]];
          eauto 10.
      * intros [(c & -> & [<-|Hin])|[(c & -> & [<-|Hin])
               |(c & a & rt & -> & [<-|Hin] & Hc)]]; eauto 10.
  - intros pre m post -> Hm. rewrite !convertMsgsInput_app. simpl.
    destruct m; simpl; try reflexivity; destruct Hm as [Hm|[Hm Hc]]; discriminate.
Qed.

Lemma convertMsgsInput_forwards_witness :
  convertMsgsInput
    [SystemMessage "Be brief."; UserMessage "Hi";
     AssistantMessageWithToolCalls
       [mkToolCall "call-1" "transfer_to_agent" "B"] (Some "A"%string);
     ToolMessage "B" "call-1" "transfer_to_agent";
     AssistantMessage "Hello" (Some "B"%string) external_response]
  = convertMsgsInput
      ([SystemMessage "Be brief."; UserMessage "Hi";
        AssistantMessageWithToolCalls
          [mkToolCall "call-1" "transfer_to_agent" "B"] (Some "A"%string)]
       ++ [AssistantMessage "Hello" (Some "B"%string) external_response]).
Proof.
  apply (proj2 (convertMsgsInput_forwards _)
           [SystemMessage "Be brief."; UserMessage "Hi";
            AssistantMessageWithToolCalls
              [mkToolCall "call-1" "transfer_to_agent" "B"] (Some "A"%string)]
           (ToolMessage "B" "call-1" "transfer_to_agent")
           [AssistantMessage "Hello" (Some "B"%string) external_response]).
  - reflexivity.
  - left. reflexivity.
Defined.

(** ** Tool handlers *)

Section ToolHandlerProperties.

Context (w : World).

Lemma try_catch_content {A} (failure : string) (wrap : A -> Json) (r : Result A) :
  try_catch
    (result ← r; mret (JSON_stringify w (JObj [("result"%string, wrap result)])))
    (fun error =>
       mret (JSON_stringify w
               (JObj [("error"%string, JStr (failure +:+ toString error))])))
  = Ok (toolResultContent w failure wrap r).
Proof. destruct r; reflexivity. Qed.

(** C6: the handler of a mock, MCP or Composio tool always returns a
    string to its caller and never throws: the invocation's value wrapped
    as [{ result }] when the invocation succeeds, and [{ error }] with the
    message of the caught error when it throws. *)
Theorem tool_handlers_catch (config : WorkflowTool) (pid : string) (input : Json) :
  tool_execute (createMockTool w config) input
    = Ok (toolResultContent w "Mock tool execution failed: " JStr
            (invokeMockTool w (wt_name config) (JSON_stringify w input)
               (wt_description config) (opt_or (wt_mockInstructions config) "")))
  /\ tool_execute (createMcpTool w config pid) input
    = Ok (toolResultContent w "Tool execution failed: " (fun r => r)
            (invokeMcpTool w pid (wt_name config) input
               (opt_or (wt_mcpServerURL config) "")
               (opt_or (wt_mcpServerName config) "")))
  /\ (forall composioData, wt_composioData config = Some composioData ->
        exists t, createComposioTool w config pid = Ok t
          /\ tool_execute t input
             = Ok (toolResultContent w "Tool execution failed: " (fun r => r)
                     (invokeComposioTool w pid (wt_name config) composioData input))).
Proof.
  split; [|split].
  - apply (try_catch_content _ JStr).
  - apply (try_catch_content _ (fun r => r)).
  - intros cd Hcd. unfold createComposioTool. rewrite Hcd.
    eexists. split; [reflexivity|]. apply (try_catch_content _ (fun r => r)).
Qed.

(** ** The RAG tool *)

Lemma validSourceIds_nil (pid : string) (sourceIds : list string)
    (rows : list DataSource) :
  (forall s, s ∈ rows -> ds_projectId s = pid -> ds_active s = true ->
             ds_id s ∉ sourceIds) ->
  validSourceIds sourceIds
    (List.filter (fun s => String.eqb (ds_projectId s) pid && ds_active s) rows) = [].
Proof.
  intros Hnone. unfold validSourceIds.
  induction rows as [|s rows IH]; simpl; [reflexivity|].
  assert (IH' : forall s0, s0 ∈ rows -> ds_projectId s0 = pid ->
                  ds_active s0 = true -> ds_id s0 ∉ sourceIds).
  { intros s0 Hin. apply Hnone. now right. }
  specialize (IH IH').
  destruct (String.eqb_spec (ds_projectId s) pid) as [Hp|Hp]; simpl; [|exact IH].
  destruct (ds_active s) eqn:Ha; simpl; [|exact IH].
  destruct (includes sourceIds (ds_id s)) eqn:Hinc; simpl; [|exact IH].
  exfalso. apply (Hnone s); [now left|assumption..|].
  unfold includes in Hinc. apply existsb_exists in Hinc as (x & Hx & Heq).
  apply String.eqb_eq in Heq. subst x. now apply list_elem_of_In.
Qed.

(** C9, as amended: when the query embedding and the look-up of the
    project's data sources succeed, and no configured data-source id is
    that of a data source active for the project, the invocation returns
    the empty list, whatever the vector store and the document store
    would answer. *)
Theorem invokeRagTool_no_active_source (pid query : string)
    (sourceIds : list string) (returnType : RagReturnType) (k : Z)
    (embedding : list Z) (rows : list DataSource) :
  embed w query = Ok embedding ->
  dataSourcesCollection w = Ok rows ->
  (forall s, s ∈ rows -> ds_projectId s = pid -> ds_active s = true ->
             ds_id s ∉ sourceIds) ->
  invokeRagTool w pid query sourceIds returnType k = Ok [].
Proof.
  intros Hembed Hrows Hnone. unfold invokeRagTool, dataSourcesCollection_find.
  rewrite Hembed, Hrows. simpl.
  now rewrite (validSourceIds_nil pid sourceIds rows Hnone).
Qed.

End ToolHandlerProperties.

Lemma tool_handlers_catch_witness :
  exists t,
    createComposioTool (Examples.world (fun _ => [])) Examples.composio_tool "proj" = Ok t
    /\ tool_execute t JNull
       = Ok (toolResultContent (Examples.world (fun _ => []))
               "Tool execution failed: " (fun r => r)
               (Throw (new_Error "project proj not found"))).
Proof.
  exact (proj2 (proj2 (tool_handlers_catch (Examples.world (fun _ => []))
                         Examples.composio_tool "proj" JNull))
           (mkComposioData "GMAIL_SEND" "gmail" false) eq_refl).
Defined.

Lemma invokeRagTool_no_active_source_witness :
  invokeRagTool Examples.world_qdrant_down "proj" "refund policy"
    ["src-1"%string] chunks 3 = Ok [].
Proof.
  apply (invokeRagTool_no_active_source Examples.world_qdrant_down "proj"
           "refund policy" ["src-1"%string] chunks 3 [1; 2; 3] Examples.sources).
  - reflexivity.
  - reflexivity.
  - intros s Hs Hp Ha Hid. apply list_elem_of_In in Hs, Hid. simpl in Hs, Hid.
    destruct Hs as [<-|[<-|[<-|[]]]]; simpl in *;
      try discriminate; destruct Hid as [Hid|[]]; discriminate.
Defined.

(** C9, as stated, fails: none of the configured data-source ids is that
    of an active data source of the project, yet an invocation whose query
    embedding fails raises that error instead of returning the empty list;
    the embedding is computed before the data sources are looked at, and
    the handler of the RAG tool lets the error through. *)
Lemma invokeRagTool_raises_without_sources :
  validSourceIds ["src-1"%string]
    (List.filter (fun s => String.eqb (ds_projectId s) "proj" && ds_active s)
                 Examples.sources) = []
  /\ invokeRagTool Examples.world_embed_down "proj" "refund policy"
       ["src-1"%string] chunks 3
     = Throw (mkError "Error" "embedding request failed")
  /\ (exists t, createRagTool Examples.world_embed_down Examples.rag_agent "proj" = Ok t
        /\ tool_execute t (JObj [("query"%string, JStr "refund policy")])
           = Throw (mkError "Error" "embedding request failed")).
Proof.
  split; [reflexivity|]. split; [reflexivity|].
  eexists. split; reflexivity.
Qed.

(** ** The greeting shortcut *)

Lemma greetingPrompt_first (workflow : Workflow) (pre : list WorkflowPrompt)
    (p : WorkflowPrompt) (post : list WorkflowPrompt) :
  wf_prompts workflow = pre ++ p :: post ->
  (forall q, q ∈ pre -> wp_type q <> "greeting"%string) ->
  wp_type p = "greeting"%string ->
  greetingPrompt workflow = or_else (wp_prompt p) "How can I help you today?".
Proof.
  intros Hps Hpre Hp. unfold greetingPrompt. rewrite Hps. clear Hps.
  induction pre as [|q pre IH]; simpl.
  - rewrite Hp. reflexivity.
  - destruct (String.eqb_spec (wp_type q) "greeting") as [Hq|Hq].
    + exfalso. apply (Hpre q); [now left|exact Hq].
    + apply IH. intros q' Hin. apply Hpre. now right.
Qed.

Lemma greetingPrompt_none (workflow : Workflow) :
  (forall q, q ∈ wf_prompts workflow -> wp_type q <> "greeting"%string) ->
  greetingPrompt workflow = "How can I help you today?"%string.
Proof.
  intros Hnone. unfold greetingPrompt.
  destruct (List.find _ (wf_prompts workflow)) as [p|] eqn:Hfind; [|reflexivity].
  apply find_some in Hfind as [Hin Hp]. apply String.eqb_eq in Hp.
  exfalso. apply (Hnone p); [now apply list_elem_of_In|exact Hp].
Qed.

(** C4: when the repaired transcript is one system message and nothing
    else, the invocation yields the greeting as an external assistant
    message of the start agent, then the usage event with all counters at
    zero, and returns; it reads nothing from the provider and does not
    depend on the project tools, the tool registry or the agent graph.  The
    greeting is the text of the first prompt of type [greeting] when that
    text is not empty, and the fallback otherwise. *)
Theorem greeting_turn (w : World) (fuel : nat) (workflow : Workflow)
    (projectTools : list WorkflowTool) (messages : list Message) :
  onlySystemMessage (ensureSystemMessage messages) = true ->
  streamResponse w fuel workflow projectTools messages
    = mkInvocation TurnComplete
        [EvMessage (AssistantMessage (greetingPrompt workflow)
                      (Some (startAgent workflow)) external_response);
         EvUsage (mkUsage 0 0 0)]
        []
  /\ (forall pre p post,
        wf_prompts workflow = pre ++ p :: post ->
        (forall q, q ∈ pre -> wp_type q <> "greeting"%string) ->
        wp_type p = "greeting"%string ->
        greetingPrompt workflow
          = if truthy (wp_prompt p) then wp_prompt p
            else "How can I help you today?"%string)
  /\ ((forall q, q ∈ wf_prompts workflow -> wp_type q <> "greeting"%string) ->
      greetingPrompt workflow = "How can I help you today?"%string).
Proof.
  intros Honly. split; [|split].
  - unfold streamResponse. rewrite Honly. reflexivity.
  - apply greetingPrompt_first.
  - apply greetingPrompt_none.
Qed.

Lemma greeting_turn_witness :
  is_ok (createTools (Examples.world (fun _ => [])) Examples.greeting_workflow
           (toolConfigOf Examples.greeting_workflow [])) = false
  /\ streamResponse (Examples.world (fun _ => [])) 0 Examples.greeting_workflow []
       [SystemMessage ""]
     = mkInvocation TurnComplete
         [EvMessage (AssistantMessage "Welcome!" (Some "A"%string) external_response);
          EvUsage (mkUsage 0 0 0)]
         [].
Proof.
  split; [reflexivity|].
  exact (proj1 (greeting_turn (Examples.world (fun _ => [])) 0
                  Examples.greeting_workflow [] [SystemMessage ""] eq_refl)).
Defined.

(** ** One event of the provider stream *)

Section EventProperties.

Context (w : World) (workflow : Workflow).
Context (agentConfig : JsObject.t WorkflowAgent).

#[local] Abbreviation handle := (handleEvent w workflow agentConfig).
#[local] Abbreviation process := (processEvents w workflow agentConfig).

(** C7: a hand-off event whose target is the active agent changes
    nothing and emits nothing: the transcript, the transfer counter, the
    active agent and the call stack are those of before, no transfer
    pair is produced, and the stream goes on with its next event. *)
Theorem self_handoff_ignored (st : LoopState) (name : string)
    (rest : list StreamEvent) :
  handle st (RunItemStreamEvent name (HandoffOutputItem (agentName st)))
    = (st, [], NextEvent)
  /\ sp_state (process st
       (RunItemStreamEvent name (HandoffOutputItem (agentName st)) :: rest))
     = sp_state (process st rest)
  /\ sp_emitted (process st
       (RunItemStreamEvent name (HandoffOutputItem (agentName st)) :: rest))
     = sp_emitted (process st rest).
Proof.
  assert (H : handle st (RunItemStreamEvent name (HandoffOutputItem (agentName st)))
              = (st, [], NextEvent)).
  { unfold handleEvent, onHandoff.
    destruct (String.eqb name "handoff_occurred"); [|reflexivity].
    now rewrite String.eqb_refl. }
  split; [exact H|].
  change (process st (?e :: rest)) with
    (let '(st1, out1, control) := handle st e in
     match control with
     | ContinueTurnLoop => mkStreamPass st1 out1 [e] ContinueTurnLoop
     | NextEvent =>
         let p := process st1 rest in
         mkStreamPass (sp_state p) (out1 ++ sp_emitted p)
                      (e :: sp_read p) (sp_control p)
     end).
  rewrite H. split; reflexivity.
Qed.

End EventProperties.

(** ** Usage accounting *)

Lemma usage_add_0_r (u : Usage) : usage_add u (mkUsage 0 0 0) = u.
Proof. destruct u. unfold usage_add. simpl. f_equal; lia. Qed.

Lemma usage_add_0_l (u : Usage) : usage_add (mkUsage 0 0 0) u = u.
Proof. destruct u. reflexivity. Qed.

Lemma usage_add_assoc (a b c : Usage) :
  usage_add (usage_add a b) c = usage_add a (usage_add b c).
Proof. unfold usage_add. simpl. f_equal; lia. Qed.

Lemma usageSum_app (xs ys : list StreamEvent) :
  usageSum (xs ++ ys) = usage_add (usageSum xs) (usageSum ys).
Proof.
  induction xs as [|x xs IH]; simpl.
  - now rewrite usage_add_0_l.
  - fold (usageSum (xs ++ ys)). fold (usageSum xs).
    now rewrite IH, usage_add_assoc.
Qed.

Lemma usage_le_add (u d : Usage) : usage_nonneg d -> usage_le u (usage_add u d).
Proof. unfold usage_nonneg, usage_le, usage_add. simpl. lia. Qed.

Lemma usageSum_nonneg (events : list StreamEvent) :
  Forall (fun e => usage_nonneg (usageDelta e)) events -> usage_nonneg (usageSum events).
Proof.
  induction 1 as [|e es He _ IH]; simpl.
  - unfold usage_nonneg. simpl. lia.
  - fold (usageSum es). unfold usage_nonneg, usage_add in *. simpl. lia.
Qed.

Section LoopProperties.

Context (w : World) (workflow : Workflow).
Context (agentConfig : JsObject.t WorkflowAgent) (agents : JsObject.t Agent).

#[local] Abbreviation handle := (handleEvent w workflow agentConfig).
#[local] Abbreviation process := (processEvents w workflow agentConfig).
#[local] Abbreviation loop := (turnLoop w workflow agentConfig agents).

(** What the pushes of a response's function calls leave untouched. *)
Lemma onResponseOutputs_frame (outputs : list ResponseOutput) (st : LoopState) :
  let st' := (onResponseOutputs st outputs).1 in
  agentName st' = agentName st /\ stack st' = stack st
  /\ transferCounter st' = transferCounter st
  /\ usageTracker st' = usageTracker st
  /\ Forall isMessageEvent (onResponseOutputs st outputs).2.
Proof.
  revert st. induction outputs as [|o os IH]; intros st; simpl.
  - repeat split; constructor.
  - destruct o as [callId name arguments|]; [|apply IH].
    destruct (negb (startsWith_transfer_to name)); [|apply IH].
    specialize (IH (push_emit st (AssistantMessageWithToolCalls
                      [mkToolCall callId name arguments] (Some (agentName st)))).1).
    simpl in IH. destruct (onResponseOutputs _ os) as [st2 out2]. simpl in *.
    destruct IH as (? & ? & ? & ? & ?). repeat split; try assumption.
    constructor; [exact I|assumption].
Qed.

Lemma onMessageContents_frame (contents : list MessageContent) (isInternal : bool)
    (st : LoopState) :
  let st' := (onMessageContents st isInternal contents).1 in
  agentName st' = agentName st /\ stack st' = stack st
  /\ transferCounter st' = transferCounter st
  /\ usageTracker st' = usageTracker st
  /\ Forall isMessageEvent (onMessageContents st isInternal contents).2.
Proof.
  revert st. induction contents as [|c cs IH]; intros st; simpl.
  - repeat split; constructor.
  - destruct c as [text|]; [|apply IH].
    specialize (IH (push_emit st (AssistantMessage text (Some (agentName st))
                      (if isInternal then internal_response
                       else external_response))).1).
    simpl in IH. destruct (onMessageContents _ isInternal cs) as [st2 out2].
    simpl in *. destruct IH as (? & ? & ? & ? & ?). repeat split; try assumption.
    constructor; [exact I|assumption].
Qed.

Lemma onHandoff_frame (st st1 : LoopState) (name : string) (item : RunItem)
    (out1 : list OutEvent) :
  onHandoff w st name item = Some (st1, out1) ->
  usageTracker st1 = usageTracker st /\ Forall isMessageEvent out1.
Proof.
  unfold onHandoff. destruct item; try (intros [= <- <-]; split; constructor).
  destruct (String.eqb name "handoff_occurred");
    [|intros [= <- <-]; split; constructor].
  destruct (String.eqb (agentName st) targetAgent); [discriminate|].
  intros [= <- <-]. split; [reflexivity|]. repeat constructor.
Qed.

Lemma onToolCallOutput_frame (st : LoopState) (item : RunItem) :
  let st' := (onToolCallOutput st item).1 in
  agentName st' = agentName st /\ stack st' = stack st
  /\ transferCounter st' = transferCounter st
  /\ usageTracker st' = usageTracker st
  /\ Forall isMessageEvent (onToolCallOutput st item).2.
Proof.
  destruct item as [|status output callId name| | | |]; simpl;
    try (repeat split; constructor).
  destruct status, output; simpl; repeat split; repeat constructor.
Qed.

Lemma onMessageOutput_frame (st : LoopState) (item : RunItem) :
  usageTracker (onMessageOutput w workflow agentConfig st item).1.1 = usageTracker st
  /\ Forall isMessageEvent (onMessageOutput w workflow agentConfig st item).1.2.
Proof.
  destruct item as [| | |status contents| |]; simpl; try (split; constructor).
  destruct status; simpl; try (split; constructor).
  pose proof (onMessageContents_frame contents
                (visibility_is agentConfig (agentName st) internal) st) as H.
  simpl in H. destruct (onMessageContents st _ contents) as [st1 out1].
  simpl in H. destruct H as (_ & _ & _ & Hu & Hm).
  destruct (visibility_is agentConfig (agentName st) internal); simpl.
  - destruct (getNextAgentName (stack st1) workflow) as [next stack1]. simpl.
    split; [exact Hu|]. apply Forall_app. split; [exact Hm|]. repeat constructor.
  - split; assumption.
Qed.

(** Every event read adds its usage block to the totals, once; an event
    that is not a completed response adds nothing. *)
Lemma handleEvent_usage (st : LoopState) (event : StreamEvent) :
  usageTracker (handle st event).1.1 = usage_add (usageTracker st) (usageDelta event)
  /\ Forall isMessageEvent (handle st event).1.2.
Proof.
  destruct event as [data|name item|]; simpl.
  - destruct data as [output usage|]; simpl.
    + pose proof (onResponseOutputs_frame output st) as H. simpl in H.
      destruct (onResponseOutputs st output) as [st1 out1]. simpl in *.
      destruct H as (_ & _ & _ & Hu & Hm). rewrite Hu. split; [reflexivity|exact Hm].
    + split; [now rewrite usage_add_0_r|constructor].
  - rewrite usage_add_0_r.
    destruct (onHandoff w st name item) as [[st1 out1]|] eqn:Hh; simpl;
      [|split; [reflexivity|constructor]].
    apply onHandoff_frame in Hh as [Hu1 Hm1].
    pose proof (onToolCallOutput_frame st1 item) as H2. simpl in H2.
    destruct (onToolCallOutput st1 item) as [st2 out2]. simpl in H2.
    destruct H2 as (_ & _ & _ & Hu2 & Hm2).
    pose proof (onMessageOutput_frame st2 item) as [Hu3 Hm3].
    destruct (onMessageOutput w workflow agentConfig st2 item) as [[st3 out3] control].
    simpl in *. split; [congruence|].
    apply Forall_app. split; [exact Hm1|]. apply Forall_app. split; assumption.
  - split; [now rewrite usage_add_0_r|constructor].
Qed.

Lemma processEvents_cons (st : LoopState) (event : StreamEvent)
    (rest : list StreamEvent) :
  process st (event :: rest)
  = match (handle st event).2 with
    | ContinueTurnLoop =>
        mkStreamPass (handle st event).1.1 (handle st event).1.2 [event]
                     ContinueTurnLoop
    | NextEvent =>
        let p := process (handle st event).1.1 rest in
        mkStreamPass (sp_state p) ((handle st event).1.2 ++ sp_emitted p)
                     (event :: sp_read p) (sp_control p)
    end.
Proof.
  simpl. destruct (handleEvent w workflow agentConfig st event) as [[st1 out1] control].
  reflexivity.
Qed.

Lemma processEvents_usage (events : list StreamEvent) (st : LoopState) :
  usageTracker (sp_state (process st events))
    = usage_add (usageTracker st) (usageSum (sp_read (process st events)))
  /\ Forall isMessageEvent (sp_emitted (process st events)).
Proof.
  revert st. induction events as [|e es IH]; intros st.
  - simpl. split; [now rewrite usage_add_0_r|constructor].
  - rewrite processEvents_cons. destruct (handleEvent_usage st e) as [Hu Hm].
    destruct ((handle st e).2); simpl.
    + destruct (IH (handle st e).1.1) as [IHu IHm].
      fold (usageSum (sp_read (process (handle st e).1.1 es))).
      rewrite IHu, Hu, usage_add_assoc. split; [reflexivity|].
      apply Forall_app. split; assumption.
    + rewrite Hu, usage_add_0_r. split; [reflexivity|exact Hm].
Qed.

Lemma turnLoop_S (fuel iter : nat) (st : LoopState) :
  loop (S fuel) iter st
  = match JsObject.get agents (agentName st) with
    | None =>
        mkLoopRun (Thrown (new_Error "agent not found in agent config!"))
                  [] [] st (S iter)
    | Some agent =>
        let result := run w (S iter) agent (convertMsgsInput (turnMsgs st)) in
        let p := process st (rs_events result) in
        match sp_control p with
        | ContinueTurnLoop =>
            after (sp_emitted p) (sp_read p) (loop fuel (S iter) (sp_state p))
        | NextEvent =>
            match rs_throws result with
            | Some e =>
                mkLoopRun (Thrown e) (sp_emitted p) (sp_read p) (sp_state p) (S iter)
            | None =>
                if lastMessageCompletesTurn agentConfig (sp_state p) then
                  mkLoopRun TurnComplete (sp_emitted p) (sp_read p) (sp_state p)
                            (S iter)
                else
                  after (sp_emitted p) (sp_read p) (loop fuel (S iter) (sp_state p))
            end
        end
    end.
Proof. reflexivity. Qed.

(** The totals at any point of the loop are the totals it started from
    plus the usage blocks of the events read since. *)
Lemma turnLoop_usage (fuel iter : nat) (st : LoopState) :
  usageTracker (lr_state (loop fuel iter st))
    = usage_add (usageTracker st) (usageSum (lr_read (loop fuel iter st)))
  /\ Forall isMessageEvent (lr_emitted (loop fuel iter st)).
Proof.
  revert iter st. induction fuel as [|fuel IH]; intros iter st.
  - simpl. split; [now rewrite usage_add_0_r|constructor].
  - rewrite turnLoop_S.
    destruct (JsObject.get agents (agentName st)) as [agent|];
      [|simpl; split; [now rewrite usage_add_0_r|constructor]].
    cbv zeta.
    set (result := run w (S iter) agent (convertMsgsInput (turnMsgs st))).
    destruct (processEvents_usage (rs_events result) st) as [Hu Hm].
    destruct (IH (S iter) (sp_state (process st (rs_events result)))) as [IHu IHm].
    assert (Hafter :
      usageTracker (lr_state (after (sp_emitted (process st (rs_events result)))
                                (sp_read (process st (rs_events result)))
                                (loop fuel (S iter)
                                   (sp_state (process st (rs_events result))))))
      = usage_add (usageTracker st)
          (usageSum (lr_read (after (sp_emitted (process st (rs_events result)))
                                (sp_read (process st (rs_events result)))
                                (loop fuel (S iter)
                                   (sp_state (process st (rs_events result)))))))
      /\ Forall isMessageEvent
           (lr_emitted (after (sp_emitted (process st (rs_events result)))
                          (sp_read (process st (rs_events result)))
                          (loop fuel (S iter)
                             (sp_state (process st (rs_events result))))))).
    { unfold after. simpl. rewrite usageSum_app, <- usage_add_assoc, <- Hu.
      split; [exact IHu|]. apply Forall_app. split; assumption. }
    destruct (sp_control (process st (rs_events result))); [|exact Hafter].
    destruct (rs_throws result); [simpl; split; assumption|].
    destruct (lastMessageCompletesTurn agentConfig _);
      [simpl; split; assumption|exact Hafter].
Qed.

(** ** The end of a turn *)

Lemma lastMessageCompletesTurn_iff (st : LoopState) :
  lastMessageCompletesTurn agentConfig st = true
  <-> TurnCompletionCondition agentConfig st.
Proof.
  unfold lastMessageCompletesTurn, TurnCompletionCondition, visibility_is.
  split.
  - intros H. apply andb_true_iff in H as [Hv Hl]. split.
    + destruct (JsObject.get agentConfig (agentName st)) as [c|]; [|discriminate].
      exists c. split; [reflexivity|]. now destruct (wa_outputVisibility c).
    + destruct (last (turnMsgs st)) as [m|]; [|discriminate].
      destruct m as [| |c a rt| |]; try discriminate.
      destruct a as [a|]; [|discriminate].
      apply String.eqb_eq in Hl. subst a.
      exists (AssistantMessage c (Some (agentName st)) rt). now repeat split.
  - intros [(c & Hc & Hv) (m & Hm & Hr & Hcontent & Ha)].
    rewrite Hc, Hv, Hm. simpl.
    destruct m as [| |c' a rt|tcs a|]; try discriminate; simpl in *.
    + subst a. apply String.eqb_refl.
    + now contradict Hcontent.
Qed.

Lemma turnLoop_complete_inv (fuel iter : nat) (st : LoopState) :
  lr_outcome (loop fuel iter st) = TurnComplete ->
  exists st0 k agent,
    JsObject.get agents (agentName st0) = Some agent
    /\ rs_throws (run w k agent (convertMsgsInput (turnMsgs st0))) = None
    /\ sp_control (process st0
         (rs_events (run w k agent (convertMsgsInput (turnMsgs st0))))) = NextEvent
    /\ lr_state (loop fuel iter st)
       = sp_state (process st0
           (rs_events (run w k agent (convertMsgsInput (turnMsgs st0)))))
    /\ lastMessageCompletesTurn agentConfig (lr_state (loop fuel iter st)) = true.
Proof.
  revert iter st. induction fuel as [|fuel IH]; intros iter st; [discriminate|].
  rewrite turnLoop_S.
  destruct (JsObject.get agents (agentName st)) as [agent|] eqn:Hagent;
    [|discriminate].
  cbv zeta.
  destruct (sp_control _) eqn:Hcontrol; [|apply IH].
  destruct (rs_throws _) eqn:Hthrows; [discriminate|].
  destruct (lastMessageCompletesTurn agentConfig _) eqn:Hlast; [|apply IH].
  intros _. exists st, (S iter), agent. simpl. now repeat split.
Qed.

(** C1: the loop ends with the turn complete only at the end of a provider
    stream, in a state where the active agent is configured user-facing and
    the last message of the transcript is an assistant message with
    non-null content whose agent name is the active agent; at the end of a
    stream in any other state the loop does not end: it goes round again
    from that state, which is where the active agent is resolved and
    invoked anew. *)
Theorem turn_completes_only_when (fuel iter : nat) (st : LoopState) :
  (lr_outcome (loop fuel iter st) = TurnComplete ->
     TurnCompletionCondition agentConfig (lr_state (loop fuel iter st))
     /\ exists st0 k agent,
          JsObject.get agents (agentName st0) = Some agent
          /\ rs_throws (run w k agent (convertMsgsInput (turnMsgs st0))) = None
          /\ sp_control (process st0
               (rs_events (run w k agent (convertMsgsInput (turnMsgs st0)))))
             = NextEvent
          /\ lr_state (loop fuel iter st)
             = sp_state (process st0
                 (rs_events (run w k agent (convertMsgsInput (turnMsgs st0))))))
  /\ (forall agent,
        JsObject.get agents (agentName st) = Some agent ->
        rs_throws (run w (S iter) agent (convertMsgsInput (turnMsgs st))) = None ->
        sp_control (process st
          (rs_events (run w (S iter) agent (convertMsgsInput (turnMsgs st)))))
          = NextEvent ->
        ~ TurnCompletionCondition agentConfig
            (sp_state (process st
               (rs_events (run w (S iter) agent (convertMsgsInput (turnMsgs st)))))) ->
        loop (S fuel) iter st
        = after
            (sp_emitted (process st
               (rs_events (run w (S iter) agent (convertMsgsInput (turnMsgs st))))))
            (sp_read (process st
               (rs_events (run w (S iter) agent (convertMsgsInput (turnMsgs st))))))
            (loop fuel (S iter)
               (sp_state (process st
                  (rs_events (run w (S iter) agent
                                (convertMsgsInput (turnMsgs st)))))))).
Proof.
  split.
  - intros Hdone.
    destruct (turnLoop_complete_inv fuel iter st Hdone)
      as (st0 & k & agent & Hagent & Hthrows & Hcontrol & Hstate & Hlast).
    split; [now apply lastMessageCompletesTurn_iff|].
    exists st0, k, agent. now repeat split.
  - intros agent Hagent Hthrows Hcontrol Hnot.
    rewrite turnLoop_S, Hagent. cbv zeta. rewrite Hcontrol, Hthrows.
    destruct (lastMessageCompletesTurn agentConfig _) eqn:Hlast; [|reflexivity].
    exfalso. apply Hnot. now apply lastMessageCompletesTurn_iff.
Qed.

End LoopProperties.

Lemma turn_completes_only_when_witness :
  TurnCompletionCondition (agentConfigOf Examples.handoff_workflow)
    (lr_state (Examples.handoff_run 2 (initialState Examples.handoff_workflow
                                         Examples.hello)))
  /\ Examples.handoff_run 2 (initialState Examples.handoff_workflow Examples.hello)
     = after
         (sp_emitted (Examples.handoff_pass
                        (initialState Examples.handoff_workflow Examples.hello)))
         (sp_read (Examples.handoff_pass
                     (initialState Examples.handoff_workflow Examples.hello)))
         (turnLoop (Examples.world Examples.handoff_provider)
            Examples.handoff_workflow (agentConfigOf Examples.handoff_workflow)
            (Examples.agents_of (Examples.world Examples.handoff_provider)
               Examples.handoff_workflow)
            1 1
            (sp_state (Examples.handoff_pass
                         (initialState Examples.handoff_workflow Examples.hello)))).
Proof.
  split.
  - refine (proj1 (proj1 (turn_completes_only_when
                     (Examples.world Examples.handoff_provider)
                     Examples.handoff_workflow
                     (agentConfigOf Examples.handoff_workflow)
                     (Examples.agents_of (Examples.world Examples.handoff_provider)
                        Examples.handoff_workflow)
                     2 0 (initialState Examples.handoff_workflow Examples.hello)) _)).
    vm_compute. reflexivity.
  - refine (proj2 (turn_completes_only_when
                     (Examples.world Examples.handoff_provider)
                     Examples.handoff_workflow
                     (agentConfigOf Examples.handoff_workflow)
                     (Examples.agents_of (Examples.world Examples.handoff_provider)
                        Examples.handoff_workflow)
                     1 0 (initialState Examples.handoff_workflow Examples.hello))
                  (Examples.handoff_agent_A) _ _ _ _).
    + vm_compute. reflexivity.
    + vm_compute. reflexivity.
    + vm_compute. reflexivity.
    + intros H. apply lastMessageCompletesTurn_iff in H. vm_compute in H.
      discriminate H.
Defined.

(** C8: every stream event read changes the usage totals by exactly its
    usage block, the one of a completed response and nothing for any other
    event; with non-negative token counts the totals never decrease; and
    the invocation that returns ends its events with one usage snapshot,
    equal to the componentwise sum of the usage blocks of all the events it
    read, every event before it being a message. *)
Theorem usage_accounting (w : World) (fuel : nat) (workflow : Workflow)
    (projectTools : list WorkflowTool) (messages : list Message) :
  (forall agentConfig st event,
     usageTracker (handleEvent w workflow agentConfig st event).1.1
       = usage_add (usageTracker st) (usageDelta event))
  /\ (forall agentConfig st event,
        usage_nonneg (usageDelta event) ->
        usage_le (usageTracker st)
                 (usageTracker (handleEvent w workflow agentConfig st event).1.1))
  /\ (inv_outcome (streamResponse w fuel workflow projectTools messages) = TurnComplete ->
      exists evs,
        inv_events (streamResponse w fuel workflow projectTools messages)
          = evs ++ [EvUsage (usageSum
                      (inv_read (streamResponse w fuel workflow projectTools messages)))]
        /\ Forall isMessageEvent evs).
Proof.
  split; [|split].
  - intros agentConfig st event. apply handleEvent_usage.
  - intros agentConfig st event Hnn.
    rewrite (proj1 (handleEvent_usage w workflow agentConfig st event)).
    now apply usage_le_add.
  - unfold streamResponse.
    destruct (onlySystemMessage (ensureSystemMessage messages)).
    { intros _. eexists [_]. split; [reflexivity|]. repeat constructor. }
    destruct (createTools w workflow (toolConfigOf workflow projectTools))
      as [tools|e]; [|discriminate].
    destruct (createAgents w workflow (agentConfigOf workflow) tools projectTools)
      as [[agents mentions]|e]; [|discriminate].
    cbv zeta.
    pose proof (turnLoop_usage w workflow (agentConfigOf workflow) agents fuel 0%nat
                  (initialState workflow (ensureSystemMessage messages))) as [Hu Hm].
    destruct (lr_outcome _) eqn:Hout; try discriminate.
    intros _. simpl. eexists. split; [|exact Hm].
    rewrite Hu. unfold initialState.
    destruct (getNextAgentName _ workflow) as [name stack0]. simpl.
    now rewrite usage_add_0_l.
Qed.

Lemma usage_accounting_witness :
  usage_le (mkUsage 4 3 1)
    (usageTracker
       (handleEvent (Examples.world Examples.greeter_provider)
          Examples.greeter_workflow (agentConfigOf Examples.greeter_workflow)
          (mkLoopState Examples.hello [] "A" ∅ (mkUsage 4 3 1) 0%nat)
          (Examples.response_done 10 7 3)).1.1)
  /\ exists evs,
       inv_events (streamResponse (Examples.world Examples.greeter_provider) 3
                     Examples.greeter_workflow [] Examples.hello)
         = evs ++ [EvUsage (usageSum
                     (inv_read (streamResponse
                                  (Examples.world Examples.greeter_provider)
                                  3 Examples.greeter_workflow [] Examples.hello)))]
       /\ Forall isMessageEvent evs.
Proof.
  split.
  - apply (proj1 (proj2 (usage_accounting (Examples.world Examples.greeter_provider) 3
                           Examples.greeter_workflow [] Examples.hello))
             (agentConfigOf Examples.greeter_workflow)
             (mkLoopState Examples.hello [] "A" ∅ (mkUsage 4 3 1) 0%nat)
             (Examples.response_done 10 7 3)).
    unfold usage_nonneg. simpl. lia.
  - apply (proj2 (proj2 (usage_accounting (Examples.world Examples.greeter_provider) 3
                           Examples.greeter_workflow [] Examples.hello))).
    vm_compute. reflexivity.
Defined.

(** ** Hand-offs and the call stack *)

Lemma stack_pop_push (stack : list string) (x : string) :
  stack_pop (stack_push stack x) = (Some x, stack).
Proof.
  unfold stack_pop, stack_push. now rewrite last_snoc, removelast_last.
Qed.

Lemma getNextAgentName_push (stack : list string) (x : string) (workflow : Workflow) :
  truthy x = true ->
  getNextAgentName (stack_push stack x) workflow = (x, stack).
Proof.
  intros Hx. unfold getNextAgentName. rewrite stack_pop_push.
  simpl. unfold or_else. now rewrite Hx.
Qed.

Section HandoffProperties.

Context (w : World) (workflow : Workflow).
Context (agentConfig : JsObject.t WorkflowAgent).

#[local] Abbreviation handle := (handleEvent w workflow agentConfig).
#[local] Abbreviation process := (processEvents w workflow agentConfig).

(** A quiet event neither changes the active agent nor the call stack, and
    lets the stream go on. *)
Lemma quiet_frame (st : LoopState) (event : StreamEvent) :
  quiet event = true ->
  (handle st event).2 = NextEvent
  /\ agentName (handle st event).1.1 = agentName st
  /\ stack (handle st event).1.1 = stack st.
Proof.
  intros Hq. destruct event as [data|name item|]; simpl.
  - destruct data as [output usage|]; simpl; [|now repeat split].
    pose proof (onResponseOutputs_frame output st) as H. simpl in H.
    destruct (onResponseOutputs st output) as [st1 out1]. simpl in *.
    destruct H as (Ha & Hs & _). now repeat split.
  - destruct item as [|status output callId nm| | | |]; simpl in *;
      try discriminate; try (now repeat split).
    pose proof (onToolCallOutput_frame st
                  (ToolCallOutputItem_functionCallResult status output callId nm))
      as H.
    simpl in H.
    destruct status, output; simpl in *; now repeat split.
  - now repeat split.
Qed.

(** An explicit hand-off to another agent: the pair is recorded, the
    current agent is pushed, the target becomes active. *)
Lemma handleEvent_handoff (st : LoopState) (target : string) :
  agentName st <> target ->
  handle st (RunItemStreamEvent "handoff_occurred" (HandoffOutputItem target))
  = ((transfer w st (stack st) (agentName st) target).1,
     (transfer w st (stack st) (agentName st) target).2, NextEvent).
Proof.
  intros Hne. unfold handleEvent, onHandoff. simpl.
  apply String.eqb_neq in Hne. rewrite Hne. reflexivity.
Qed.

(** A message of an internal agent, after any number of quiet events: the
    stream is left, the agent on top of the stack (or the start agent)
    becomes active, and the speaker takes its place on the stack. *)
Lemma processEvents_internal_message (mid : list StreamEvent) (st : LoopState)
    (name : string) (contents : list MessageContent) (rest : list StreamEvent) :
  Forall (fun e => quiet e = true) mid ->
  visibility_is agentConfig (agentName st) internal = true ->
  sp_control (process st
    (mid ++ RunItemStreamEvent name (MessageOutputItem_message completed contents)
         :: rest)) = ContinueTurnLoop
  /\ agentName (sp_state (process st
       (mid ++ RunItemStreamEvent name (MessageOutputItem_message completed contents)
            :: rest))) = (getNextAgentName (stack st) workflow).1
  /\ stack (sp_state (process st
       (mid ++ RunItemStreamEvent name (MessageOutputItem_message completed contents)
            :: rest)))
     = stack_push (getNextAgentName (stack st) workflow).2 (agentName st)
  /\ sp_read (process st
       (mid ++ RunItemStreamEvent name (MessageOutputItem_message completed contents)
            :: rest))
     = mid ++ [RunItemStreamEvent name (MessageOutputItem_message completed contents)].
Proof.
  intros Hmid. revert st. induction Hmid as [|e mid He _ IH]; intros st Hvis.
  - change ([] ++ ?l) with l. rewrite processEvents_cons.
    unfold handleEvent at 1 2 3 4 5 6 7. simpl. rewrite Hvis.
    pose proof (onMessageContents_frame contents true st) as H. simpl in H.
    destruct (onMessageContents st true contents) as [st1 out1]. simpl in H.
    destruct H as (Ha & Hs & _). rewrite Hs, Ha.
    destruct (getNextAgentName (stack st) workflow) as [next stack1]. simpl.
    now repeat split.
  - change ((e :: mid) ++ ?l) with (e :: (mid ++ l)). rewrite processEvents_cons.
    destruct (quiet_frame st e He) as (Hc & Ha & Hs). rewrite Hc. cbv zeta. simpl.
    destruct (IH (handle st e).1.1) as (IHc & IHa & IHs & IHr).
    { now rewrite Ha. }
    rewrite IHc, IHa, IHs, IHr, Ha, Hs. now repeat split.
Qed.

(** C2, as amended: when an agent X hands off to an internal agent Y and
    Y, after any tool calls of its own, completes with a message, the rest
    of the stream is dropped and control returns to X itself, the caller on
    top of the call stack; the agent graph and the hand-offs Y declares
    have no part in the choice. *)
Theorem handback_returns_to_caller (st : LoopState) (Y : string)
    (mid : list StreamEvent) (name : string) (contents : list MessageContent)
    (rest : list StreamEvent) :
  agentName st <> Y ->
  truthy (agentName st) = true ->
  visibility_is agentConfig Y internal = true ->
  Forall (fun e => quiet e = true) mid ->
  agentName (sp_state (process st
    (RunItemStreamEvent "handoff_occurred" (HandoffOutputItem Y)
     :: mid ++ RunItemStreamEvent name (MessageOutputItem_message completed contents)
     :: rest))) = agentName st
  /\ sp_control (process st
       (RunItemStreamEvent "handoff_occurred" (HandoffOutputItem Y)
        :: mid ++ RunItemStreamEvent name (MessageOutputItem_message completed contents)
        :: rest)) = ContinueTurnLoop
  /\ sp_read (process st
       (RunItemStreamEvent "handoff_occurred" (HandoffOutputItem Y)
        :: mid ++ RunItemStreamEvent name (MessageOutputItem_message completed contents)
        :: rest))
     = RunItemStreamEvent "handoff_occurred" (HandoffOutputItem Y)
       :: mid ++ [RunItemStreamEvent name (MessageOutputItem_message completed contents)].
Proof.
  intros Hne Htruthy Hvis Hmid.
  rewrite processEvents_cons, (handleEvent_handoff st Y Hne). cbv zeta. simpl.
  destruct (processEvents_internal_message mid
              (mkLoopState
                 (turnMsgs st ++
                  [AssistantMessageWithToolCalls
                     [mkToolCall (randomUUID w (uuidsDrawn st)) "transfer_to_agent"
                        (JSON_stringify w (JObj [("assistant"%string, JStr Y)]))]
                     (Some (agentName st));
                   ToolMessage (JSON_stringify w (JObj [("assistant"%string, JStr Y)]))
                     (randomUUID w (uuidsDrawn st)) "transfer_to_agent"])
                 (stack_push (stack st) (agentName st)) Y
                 (AgentTransferCounter.increment (transferCounter st) (agentName st) Y)
                 (usageTracker st) (S (uuidsDrawn st)))
              name contents rest Hmid Hvis) as (Hc & Ha & _ & Hr).
  cbn [stack] in Ha. rewrite (getNextAgentName_push _ _ _ Htruthy) in Ha.
  rewrite Hc, Ha, Hr. now repeat split.
Qed.

End HandoffProperties.

Lemma handback_returns_to_caller_witness :
  agentName (sp_state
    (processEvents (Examples.world Examples.chain_provider) Examples.chain_workflow
       (agentConfigOf Examples.chain_workflow)
       (mkLoopState Examples.hello ["P"%string] "X" ∅ (mkUsage 0 0 0) 0%nat)
       (Examples.hands_off_to "Y"
        :: [Examples.response_done 5 3 2]
           ++ RunItemStreamEvent "message_output_created"
                (MessageOutputItem_message completed [OutputText "done"])
           :: []))) = "X"%string.
Proof.
  refine (proj1 (handback_returns_to_caller
                   (Examples.world Examples.chain_provider) Examples.chain_workflow
                   (agentConfigOf Examples.chain_workflow)
                   (mkLoopState Examples.hello ["P"%string] "X" ∅ (mkUsage 0 0 0) 0%nat)
                   "Y" [Examples.response_done 5 3 2] "message_output_created"
                   [OutputText "done"] [] _ _ _ _)).
  - discriminate.
  - reflexivity.
  - reflexivity.
  - repeat constructor.
Defined.

(** C2, as stated, fails.  In the chain P, X, Y, agent P hands off to the
    internal agent X, so that P is the caller of X; X hands off to the
    internal agent Y; Y answers.  Control is then with X, not with P, the
    prior caller of X, and Y has taken the place of X on the stack. *)
Lemma chain_hands_back_to_X_not_P :
  agentName (lr_state (Examples.chain_run 1)) = "X"%string
  /\ stack (lr_state (Examples.chain_run 1)) = ["P"%string]
  /\ agentName (lr_state (Examples.chain_run 2)) = "Y"%string
  /\ stack (lr_state (Examples.chain_run 2)) = ["P"%string; "X"%string]
  /\ lr_read (Examples.chain_run 3)
     = [Examples.hands_off_to "X"; Examples.hands_off_to "Y"; Examples.says "done"]
  /\ agentName (lr_state (Examples.chain_run 3)) = "X"%string
  /\ agentName (lr_state (Examples.chain_run 3)) <> "P"%string
  /\ stack (lr_state (Examples.chain_run 3)) = ["P"%string; "Y"%string].
Proof.
  vm_compute. repeat split; discriminate.
Qed.

(** ** Runs that never end *)

Section FuelProperties.

Context (w : World) (workflow : Workflow).
Context (agentConfig : JsObject.t WorkflowAgent) (agents : JsObject.t Agent).

#[local] Abbreviation loop := (turnLoop w workflow agentConfig agents).

Lemma after_outcome (out : list OutEvent) (evs : list StreamEvent) (r : LoopRun) :
  lr_outcome (after out evs r) = lr_outcome r.
Proof. reflexivity. Qed.

(** The budget of the model only cuts runs short: a run that ended within
    [fuel] iterations is the same run under any larger budget.  A run that
    is still running under every budget is therefore one that never ends. *)
Lemma turnLoop_fuel_mono (fuel : nat) :
  forall (extra iter : nat) (st : LoopState),
    lr_outcome (loop fuel iter st) <> StillRunning ->
    loop (fuel + extra) iter st = loop fuel iter st.
Proof.
  induction fuel as [|fuel IH]; intros extra iter st Hended.
  - now contradict Hended.
  - change (S fuel + extra)%nat with (S (fuel + extra)).
    rewrite !turnLoop_S in *.
    destruct (JsObject.get agents (agentName st)) as [agent|]; [|reflexivity].
    cbv zeta in *.
    destruct (sp_control _).
    + destruct (rs_throws _); [reflexivity|].
      destruct (lastMessageCompletesTurn agentConfig _); [reflexivity|].
      rewrite after_outcome in Hended. now rewrite IH.
    + rewrite after_outcome in Hended. now rewrite IH.
Qed.

End FuelProperties.

Lemma pingpong_agent (name : string) :
  name = "A"%string \/ name = "B"%string ->
  exists a, JsObject.get Examples.pingpong_agents name = Some a /\ agent_name a = name.
Proof.
  intros [->| ->]; eexists; split; vm_compute; reflexivity.
Qed.

(** In the ping-pong workflow the loop keeps alternating: when A is active
    it hands off to B, and when B is active with A on top of the stack it
    answers and control goes back to A.  Each iteration reads one event. *)
Lemma pingpong_loop_runs (fuel : nat) :
  forall (iter : nat) (st : LoopState),
    agentName st = "A"%string
    \/ (agentName st = "B"%string /\ last (stack st) = Some "A"%string) ->
    lr_outcome (turnLoop Examples.pingpong_world Examples.pingpong_workflow
                  (agentConfigOf Examples.pingpong_workflow)
                  Examples.pingpong_agents fuel iter st) = StillRunning
    /\ length (lr_read (turnLoop Examples.pingpong_world Examples.pingpong_workflow
                          (agentConfigOf Examples.pingpong_workflow)
                          Examples.pingpong_agents fuel iter st)) = fuel.
Proof.
  induction fuel as [|fuel IH]; intros iter st Hinv; [now split|].
  rewrite turnLoop_S.
  destruct Hinv as [HA|[HB Htop]].
  - destruct (pingpong_agent "A") as (a & Hget & Hname); [now left|].
    rewrite HA, Hget. cbv zeta.
    change (run Examples.pingpong_world (S iter) a (convertMsgsInput (turnMsgs st)))
      with (mkRunStream (Examples.pingpong_provider (agent_name a)) None).
    rewrite Hname.
    change (rs_events (mkRunStream (Examples.pingpong_provider "A") None))
      with [Examples.hands_off_to "B"].
    change (rs_throws (mkRunStream (Examples.pingpong_provider "A") None))
      with (@None Error).
    rewrite processEvents_cons.
    unfold Examples.hands_off_to.
    rewrite (handleEvent_handoff _ _ _ st "B") by (rewrite HA; discriminate).
    cbn [fst snd processEvents sp_control sp_state sp_emitted sp_read].
    unfold lastMessageCompletesTurn.
    change (agentName (transfer Examples.pingpong_world st (stack st)
                         (agentName st) "B").1) with "B"%string.
    change (visibility_is (agentConfigOf Examples.pingpong_workflow) "B" user_facing)
      with false.
    cbn [andb]. rewrite after_outcome. unfold after. cbn [lr_read].
    destruct (IH (S iter)
                (transfer Examples.pingpong_world st (stack st) (agentName st) "B").1)
      as [IHo IHl].
    { right. split; [reflexivity|].
      change (stack (transfer Examples.pingpong_world st (stack st)
                       (agentName st) "B").1)
        with (stack_push (stack st) (agentName st)).
      unfold stack_push. now rewrite last_snoc, HA. }
    rewrite IHo. split; [reflexivity|].
    rewrite length_app, IHl. reflexivity.
  - destruct (pingpong_agent "B") as (b & Hget & Hname); [now right|].
    rewrite HB, Hget. cbv zeta.
    change (run Examples.pingpong_world (S iter) b (convertMsgsInput (turnMsgs st)))
      with (mkRunStream (Examples.pingpong_provider (agent_name b)) None).
    rewrite Hname.
    change (rs_events (mkRunStream (Examples.pingpong_provider "B") None))
      with ([] ++ [Examples.says "back to you"]).
    unfold Examples.says.
    destruct (processEvents_internal_message Examples.pingpong_world
                Examples.pingpong_workflow (agentConfigOf Examples.pingpong_workflow)
                [] st "message_output_created" [OutputText "back to you"] [])
      as (Hc & Ha & _ & Hr).
    { constructor. }
    { rewrite HB. reflexivity. }
    rewrite Hc, after_outcome. unfold after. cbn [lr_read].
    destruct (IH (S iter)
                (sp_state (processEvents Examples.pingpong_world
                   Examples.pingpong_workflow
                   (agentConfigOf Examples.pingpong_workflow) st
                   ([] ++ [RunItemStreamEvent "message_output_created"
                             (MessageOutputItem_message completed
                                [OutputText "back to you"])]))))
      as [IHo IHl].
    { left. rewrite Ha. unfold getNextAgentName, stack_pop. rewrite Htop.
      reflexivity. }
    rewrite IHo. split; [reflexivity|].
    rewrite length_app, IHl, Hr. reflexivity.
Qed.

(** The same for the whole invocation: an invocation that returned or
    threw within a budget is unchanged by a larger one. *)
Lemma streamResponse_fuel_mono (w : World) (fuel extra : nat) (workflow : Workflow)
    (projectTools : list WorkflowTool) (messages : list Message) :
  inv_outcome (streamResponse w fuel workflow projectTools messages) <> StillRunning ->
  streamResponse w (fuel + extra) workflow projectTools messages
  = streamResponse w fuel workflow projectTools messages.
Proof.
  unfold streamResponse.
  destruct (onlySystemMessage (ensureSystemMessage messages)); [reflexivity|].
  destruct (createTools w workflow (toolConfigOf workflow projectTools))
    as [tools|e]; [|reflexivity].
  destruct (createAgents w workflow (agentConfigOf workflow) tools projectTools)
    as [[agents mentions]|e]; [|reflexivity].
  cbv zeta. intros Hended.
  rewrite turnLoop_fuel_mono; [reflexivity|].
  intros Hrunning. rewrite Hrunning in Hended. now apply Hended.
Qed.

(** C5: the loop has no bound on its iterations.  With a user-facing
    agent A that always hands off to an internal agent B, and B always
    answering, which sends control back to A, the invocation is still
    running after any number of iterations, having read one more provider
    event in each: it never reaches a turn completion and never throws.
    The number of iterations plays no other part: any invocation that
    returned or threw within some number of iterations is the same
    invocation when more are allowed. *)
Theorem pingpong_never_terminates (fuel : nat) :
  inv_outcome (streamResponse Examples.pingpong_world fuel
                 Examples.pingpong_workflow [] Examples.hello) = StillRunning
  /\ length (inv_read (streamResponse Examples.pingpong_world fuel
                         Examples.pingpong_workflow [] Examples.hello)) = fuel
  /\ (forall w workflow projectTools messages extra,
        inv_outcome (streamResponse w fuel workflow projectTools messages)
          <> StillRunning ->
        streamResponse w (fuel + extra) workflow projectTools messages
        = streamResponse w fuel workflow projectTools messages).
Proof.
  cut (inv_outcome (streamResponse Examples.pingpong_world fuel
                      Examples.pingpong_workflow [] Examples.hello) = StillRunning
       /\ length (inv_read (streamResponse Examples.pingpong_world fuel
                              Examples.pingpong_workflow [] Examples.hello)) = fuel).
  { intros [Ho Hl]. split; [exact Ho|]. split; [exact Hl|].
    intros w workflow projectTools messages extra.
    apply streamResponse_fuel_mono. }
  destruct (pingpong_loop_runs fuel 0%nat
              (initialState Examples.pingpong_workflow
                 (ensureSystemMessage Examples.hello))) as [Ho Hl].
  { left. reflexivity. }
  unfold streamResponse.
  change (onlySystemMessage (ensureSystemMessage Examples.hello)) with false.
  cbv iota.
  change (createTools Examples.pingpong_world Examples.pingpong_workflow
            (toolConfigOf Examples.pingpong_workflow []))
    with (@Ok (JsObject.t Tool) []).
  cbv iota zeta.
  assert (Hagents : exists mentions,
    createAgents Examples.pingpong_world Examples.pingpong_workflow
      (agentConfigOf Examples.pingpong_workflow) [] []
    = Ok (Examples.pingpong_agents, mentions)).
  { eexists. vm_compute. reflexivity. }
  destruct Hagents as [mentions Hagents].
  rewrite Hagents. cbv iota zeta beta.
  rewrite Ho. split; [reflexivity|exact Hl].
Qed.

(** * Further properties of the code *)

(** ** The system message, again *)

(** The repair of the system message is idempotent, leaves the empty
    transcript empty, and never drops a message: the transcript keeps its
    length or grows by the one message put in front. *)
Theorem ensureSystemMessage_idempotent (messages : list Message) :
  ensureSystemMessage (ensureSystemMessage messages) = ensureSystemMessage messages
  /\ (messages = [] -> ensureSystemMessage messages = [])
  /\ (length messages <= length (ensureSystemMessage messages)
      <= S (length messages))%nat.
Proof.
  unfold ensureSystemMessage, ensureSystemMessage_unshift.
  destruct messages as [|m rest]; simpl; [repeat split; lia|].
  destruct m as [c| | | |]; simpl.
  - destruct (truthy c) eqn:Hc; simpl; [rewrite Hc|]; simpl; repeat split;
      (discriminate || lia).
  - repeat split; (discriminate || lia).
  - repeat split; (discriminate || lia).
  - repeat split; (discriminate || lia).
  - repeat split; (discriminate || lia).
Qed.

(** ** The call stack rebuilt from the transcript *)

Lemma callStack_step_speaker (stack : list string) (m : Message) :
  callStack_step stack m
  = match speaker m with
    | Some a => if bool_decide (last stack = Some a) then stack else stack_push stack a
    | None => stack
    end.
Proof.
  unfold callStack_step, speaker.
  destruct (role m); try reflexivity.
  destruct (agentNameOf m) as [a|]; [|reflexivity].
  destruct (truthy a); reflexivity.
Qed.

Lemma speaker_truthy (m : Message) (a : string) : speaker m = Some a -> truthy a = true.
Proof.
  unfold speaker. destruct (role m); try discriminate.
  destruct (agentNameOf m) as [b|]; [|discriminate].
  destruct (truthy b) eqn:Hb; [|discriminate]. now intros [= <-].
Qed.

Lemma NoAdjacentRepeat_snoc (l : list string) (x : string) :
  NoAdjacentRepeat l -> last l <> Some x -> NoAdjacentRepeat (l ++ [x]).
Proof.
  intros Hl Hlast i a b Ha Hb.
  destruct (decide (S i < length l)%nat) as [Hlt|Hge].
  - rewrite lookup_app_l in Ha by lia. rewrite lookup_app_l in Hb by lia.
    now apply (Hl i).
  - assert (Hi : S i = length l).
    { apply lookup_lt_Some in Hb. rewrite length_app in Hb. simpl in Hb. lia. }
    rewrite lookup_app_l in Ha by lia.
    rewrite lookup_app_r in Hb by lia.
    replace (S i - length l)%nat with 0%nat in Hb by lia. simpl in Hb.
    injection Hb as <-. intros ->. apply Hlast.
    rewrite last_lookup. rewrite <- Hi. simpl. exact Ha.
Qed.

Lemma last_cons_default {A} (x : A) (l : list A) :
  last (x :: l) = Some (default x (last l)).
Proof.
  revert x. induction l as [|y l IH]; intros x; [reflexivity|].
  change (last (x :: y :: l)) with (last (y :: l)). rewrite IH.
  destruct l; reflexivity.
Qed.

Lemma callStack_fold (messages : list Message) (stack0 : list string) :
  NoAdjacentRepeat stack0 ->
  NoAdjacentRepeat (foldl callStack_step stack0 messages)
  /\ (forall a, a ∈ foldl callStack_step stack0 messages
                <-> a ∈ stack0 \/ a ∈ omap speaker messages)
  /\ last (foldl callStack_step stack0 messages)
     = match last (omap speaker messages) with
       | Some a => Some a
       | None => last stack0
       end.
Proof.
  revert stack0. induction messages as [|m ms IH]; intros stack0 Hno.
  - simpl. split; [exact Hno|]. split; [|reflexivity].
    intros a. rewrite elem_of_nil. tauto.
  - cbn [foldl].
    change (omap speaker (m :: ms))
      with (match speaker m with
            | Some y => y :: omap speaker ms
            | None => omap speaker ms
            end).
    rewrite callStack_step_speaker.
    destruct (speaker m) as [s|] eqn:Hs; [|now apply IH].
    destruct (bool_decide_reflect (last stack0 = Some s)) as [Htop|Htop].
    + destruct (IH stack0 Hno) as (IH1 & IH2 & IH3).
      split; [exact IH1|]. split.
      * intros a. rewrite IH2, elem_of_cons. split; [tauto|].
        intros [H|[->|H]]; try tauto. left.
        apply last_Some in Htop as [l' ->]. apply elem_of_app. right. now left.
      * rewrite IH3, last_cons_default. destruct (last (omap speaker ms)); simpl;
          [reflexivity|exact Htop].
    + destruct (IH (stack_push stack0 s)) as (IH1 & IH2 & IH3).
      { now apply NoAdjacentRepeat_snoc. }
      split; [exact IH1|]. split.
      * intros a. rewrite IH2. unfold stack_push.
        rewrite elem_of_app, list_elem_of_singleton, elem_of_cons. tauto.
      * rewrite IH3, last_cons_default. unfold stack_push. rewrite last_snoc.
        destruct (last (omap speaker ms)); reflexivity.
Qed.

(** The call stack rebuilt from a transcript lists the agents that spoke,
    in order, without immediate repeats: no two neighbours are equal, its
    entries are exactly the non-empty agent names of the assistant
    messages, and its top is the last of them. *)
Theorem createAgentCallStack_speakers (messages : list Message) :
  NoAdjacentRepeat (createAgentCallStack messages)
  /\ (forall a, a ∈ createAgentCallStack messages <-> a ∈ omap speaker messages)
  /\ last (createAgentCallStack messages) = last (omap speaker messages).
Proof.
  destruct (callStack_fold messages []) as (H1 & H2 & H3).
  { intros i a b Ha. inversion Ha. }
  split; [exact H1|]. split.
  - intros a. rewrite (H2 a), elem_of_nil. tauto.
  - unfold createAgentCallStack. rewrite H3.
    destruct (last (omap speaker messages)); reflexivity.
Qed.

Lemma initialState_agent (workflow : Workflow) (messages : list Message) :
  agentName (initialState workflow messages)
  = default (startAgent workflow) (last (omap speaker messages))
  /\ stack (initialState workflow messages)
     = removelast (createAgentCallStack messages).
Proof.
  unfold initialState, getNextAgentName, stack_pop. simpl.
  destruct (callStack_fold messages []) as (_ & _ & H3).
  { intros i a b Ha. inversion Ha. }
  fold (createAgentCallStack messages) in H3. split; [|reflexivity].
  rewrite H3. destruct (last (omap speaker messages)) as [a|] eqn:Hlast; simpl;
    [|reflexivity].
  unfold or_else.
  assert (Hin : a ∈ omap speaker messages).
  { apply last_Some in Hlast as [l' ->]. apply elem_of_app. right. now left. }
  apply list_elem_of_omap in Hin as (m & _ & Hm).
  now rewrite (speaker_truthy m a Hm).
Qed.

(** The agent an invocation starts with is the author of the last
    assistant message of the transcript that carries a non-empty agent
    name, and the start agent of the workflow when there is none; the
    call stack it starts with is the rebuilt stack without that top. *)
Theorem initial_agent_is_last_speaker (workflow : Workflow) (messages : list Message) :
  agentName (initialState workflow messages)
  = default (startAgent workflow) (last (omap speaker messages))
  /\ stack (initialState workflow messages)
     = removelast (createAgentCallStack messages)
  /\ (omap speaker messages = [] ->
      agentName (initialState workflow messages) = startAgent workflow
      /\ stack (initialState workflow messages) = []).
Proof.
  destruct (initialState_agent workflow messages) as [Ha Hs].
  split; [exact Ha|]. split; [exact Hs|].
  intros Hnone. rewrite Ha, Hs, Hnone. split; [reflexivity|].
  destruct (callStack_fold messages []) as (_ & Hmem & _).
  { intros i a b H. inversion H. }
  fold (createAgentCallStack messages) in Hmem.
  destruct (createAgentCallStack messages) as [|a l] eqn:Hstack; [reflexivity|].
  exfalso. assert (Hin : a ∈ [] \/ a ∈ omap speaker messages)
    by (apply Hmem; now left).
  rewrite Hnone in Hin. destruct Hin as [Hin|Hin]; inversion Hin.
Qed.

Lemma omap_speaker_none (later : list Message) :
  Forall (fun m => speaker m = None) later -> omap speaker later = [].
Proof.
  induction 1 as [|m ms Hm _ IH]; [reflexivity|].
  change (omap speaker (m :: ms))
    with (match speaker m with
          | Some y => y :: omap speaker ms
          | None => omap speaker ms
          end).
  now rewrite Hm.
Qed.

(** A turn that completed is resumed by the agent that completed it: on
    the final transcript of the loop, followed by any messages that name
    no agent (the user's reply), the next invocation starts with the agent
    that was active when the turn completed. *)
Theorem next_invocation_resumes_agent (w : World) (workflow next : Workflow)
    (agentConfig : JsObject.t WorkflowAgent) (agents : JsObject.t Agent)
    (fuel iter : nat) (st : LoopState) (later : list Message) :
  lr_outcome (turnLoop w workflow agentConfig agents fuel iter st) = TurnComplete ->
  truthy (agentName (lr_state (turnLoop w workflow agentConfig agents fuel iter st)))
    = true ->
  Forall (fun m => speaker m = None) later ->
  agentName (initialState next
               (turnMsgs (lr_state (turnLoop w workflow agentConfig agents fuel iter st))
                ++ later))
  = agentName (lr_state (turnLoop w workflow agentConfig agents fuel iter st)).
Proof.
  intros Hdone Htruthy Hlater.
  destruct (turnLoop_complete_inv w workflow agentConfig agents fuel iter st Hdone)
    as (st0 & k & agent & _ & _ & _ & _ & Hlast).
  set (final := lr_state (turnLoop w workflow agentConfig agents fuel iter st)) in *.
  rewrite (proj1 (initialState_agent next (turnMsgs final ++ later))).
  rewrite omap_app, (omap_speaker_none later Hlater), app_nil_r.
  unfold lastMessageCompletesTurn in Hlast.
  apply andb_true_iff in Hlast as [_ Hlast].
  destruct (last (turnMsgs final)) as [m|] eqn:Hm; [|discriminate].
  destruct m as [| |c a rt| |]; try discriminate.
  destruct a as [a|]; [|discriminate].
  apply String.eqb_eq in Hlast. subst a.
  apply last_Some in Hm as [pre ->]. rewrite omap_app.
  change (omap speaker [AssistantMessage c (Some (agentName final)) rt])
    with (match speaker (AssistantMessage c (Some (agentName final)) rt) with
          | Some y => [y]
          | None => []
          end).
  unfold speaker. simpl. rewrite Htruthy. now rewrite last_snoc.
Qed.

Lemma next_invocation_resumes_agent_witness :
  agentName (initialState Examples.handoff_workflow
               (turnMsgs (lr_state (Examples.handoff_run 2
                            (initialState Examples.handoff_workflow Examples.hello)))
                ++ [UserMessage "And then?"]))
  = "B"%string.
Proof.
  refine (next_invocation_resumes_agent
            (Examples.world Examples.handoff_provider) Examples.handoff_workflow
            Examples.handoff_workflow (agentConfigOf Examples.handoff_workflow)
            (Examples.agents_of (Examples.world Examples.handoff_provider)
               Examples.handoff_workflow)
            2 0 (initialState Examples.handoff_workflow Examples.hello)
            [UserMessage "And then?"] _ _ _).
  - vm_compute. reflexivity.
  - vm_compute. reflexivity.
  - repeat constructor.
Defined.

(** ** The transfer counter *)

Lemma colon_string : (":" : string) = String colon EmptyString.
Proof. reflexivity. Qed.

Lemma append_nil_l (s : string) : "" +:+ s = s.
Proof. reflexivity. Qed.

Lemma append_cons (c : Ascii.ascii) (s1 s2 : string) :
  String c s1 +:+ s2 = String c (s1 +:+ s2).
Proof. reflexivity. Qed.

Lemma key_injective (f f' t t' : string) :
  noColon f = true -> noColon f' = true ->
  AgentTransferCounter.key f t = AgentTransferCounter.key f' t' ->
  f = f' /\ t = t'.
Proof.
  unfold AgentTransferCounter.key. rewrite colon_string.
  revert f'. induction f as [|c f IH]; intros [|c' f'] Hf Hf';
    repeat (rewrite append_nil_l || rewrite append_cons); simpl in Hf, Hf'.
  - intros [= ->]. now split.
  - intros [= <- _]. apply andb_true_iff in Hf' as [Hc _].
    now rewrite Ascii.eqb_refl in Hc.
  - intros [= -> _]. apply andb_true_iff in Hf as [Hc _].
    now rewrite Ascii.eqb_refl in Hc.
  - intros [= -> Hrest]. apply andb_true_iff in Hf as [_ Hf].
    apply andb_true_iff in Hf' as [_ Hf'].
    destruct (IH f' Hf Hf' Hrest) as [-> ->]. now split.
Qed.

(** Counting a transfer raises the count of its pair by one and leaves
    every pair with another key as it was; pairs of names without a colon
    in the source agent have keys of their own.  The key joins the two
    names with a colon, so names that hold one can share a key. *)
Theorem transfer_counter_counts (calls : gmap string nat) (f t f' t' : string) :
  AgentTransferCounter.get (AgentTransferCounter.increment calls f t) f t
    = S (AgentTransferCounter.get calls f t)
  /\ (AgentTransferCounter.key f t <> AgentTransferCounter.key f' t' ->
      AgentTransferCounter.get (AgentTransferCounter.increment calls f t) f' t'
        = AgentTransferCounter.get calls f' t')
  /\ (noColon f = true -> noColon f' = true -> (f, t) <> (f', t') ->
      AgentTransferCounter.get (AgentTransferCounter.increment calls f t) f' t'
        = AgentTransferCounter.get calls f' t')
  /\ AgentTransferCounter.key (f +:+ ":" +:+ t) t' = AgentTransferCounter.key f (t +:+ ":" +:+ t').
Proof.
  unfold AgentTransferCounter.get, AgentTransferCounter.increment.
  split; [|split; [|split]].
  - rewrite lookup_insert_eq. simpl. lia.
  - intros Hne. now rewrite lookup_insert_ne.
  - intros Hf Hf' Hne. rewrite lookup_insert_ne; [reflexivity|].
    intros Hkey. apply Hne. now destruct (key_injective f f' t t' Hf Hf' Hkey) as [-> ->].
  - unfold AgentTransferCounter.key.
    induction f as [|c f IH]; [reflexivity|].
    rewrite (append_cons c f), (append_cons c (f +:+ ":" +:+ t)), IH.
    reflexivity.
Qed.

(** ** What the loop keeps *)

Lemma messagesOf_app (a b : list OutEvent) :
  messagesOf (a ++ b) = messagesOf a ++ messagesOf b.
Proof. apply omap_app. Qed.

Lemma messagesOf_message (m : Message) (out : list OutEvent) :
  messagesOf (EvMessage m :: out) = m :: messagesOf out.
Proof. reflexivity. Qed.

Lemma length_removelast_push (l : list string) (x : string) :
  (length l <= length (stack_push (removelast l) x))%nat.
Proof.
  unfold stack_push. rewrite length_app. simpl.
  destruct l as [|y l]; [simpl; lia|].
  rewrite (app_removelast_last (l := y :: l) y) at 1 by discriminate.
  rewrite length_app. simpl. lia.
Qed.

Section LoopInvariants.

Context (w : World) (workflow : Workflow).
Context (agentConfig : JsObject.t WorkflowAgent) (agents : JsObject.t Agent).

#[local] Abbreviation handle := (handleEvent w workflow agentConfig).
#[local] Abbreviation process := (processEvents w workflow agentConfig).
#[local] Abbreviation loop := (turnLoop w workflow agentConfig agents).

(** What every step keeps: the messages emitted are the messages appended
    to the transcript, the stack does not get shorter, and the messages
    emitted are well labelled. *)
#[local] Abbreviation Kept st out st' :=
  (turnMsgs st' = turnMsgs st ++ messagesOf out
   /\ Nat.le (length (stack st)) (length (stack st'))
   /\ Forall (wellLabelled agentConfig) out).

Lemma Kept_refl (st : LoopState) : Kept st [] st.
Proof. simpl. rewrite app_nil_r. repeat split; [lia|constructor]. Qed.

Lemma Kept_trans (st1 st2 st3 : LoopState) (out1 out2 : list OutEvent) :
  Kept st1 out1 st2 -> Kept st2 out2 st3 -> Kept st1 (out1 ++ out2) st3.
Proof.
  intros (Hm1 & Hs1 & Hl1) (Hm2 & Hs2 & Hl2).
  rewrite messagesOf_app, app_assoc, <- Hm1, <- Hm2.
  repeat split; [lia|]. apply Forall_app. now split.
Qed.

Lemma onResponseOutputs_kept (outputs : list ResponseOutput) (st : LoopState) :
  Kept st (onResponseOutputs st outputs).2 (onResponseOutputs st outputs).1.
Proof.
  revert st. induction outputs as [|o os IH]; intros st; [apply Kept_refl|].
  simpl. destruct o as [callId name arguments|]; [|apply IH].
  destruct (negb (startsWith_transfer_to name)); [|apply IH].
  specialize (IH (push_emit st (AssistantMessageWithToolCalls
                    [mkToolCall callId name arguments] (Some (agentName st)))).1).
  simpl in IH. destruct (onResponseOutputs _ os) as [st2 out2]. simpl in *.
  destruct IH as (Hm & Hs & Hl). rewrite Hm, <- app_assoc.
  repeat split; [exact Hs|]. constructor; [now exists (agentName st)|exact Hl].
Qed.

Lemma onMessageContents_kept (contents : list MessageContent) (st : LoopState) :
  Kept st
    (onMessageContents st (visibility_is agentConfig (agentName st) internal)
       contents).2
    (onMessageContents st (visibility_is agentConfig (agentName st) internal)
       contents).1.
Proof.
  revert st. induction contents as [|c cs IH]; intros st; [apply Kept_refl|].
  simpl. destruct c as [text|]; [|apply IH].
  specialize (IH (push_emit st (AssistantMessage text (Some (agentName st))
                    (if visibility_is agentConfig (agentName st) internal
                     then internal_response else external_response))).1).
  simpl in IH.
  destruct (onMessageContents _ (visibility_is agentConfig (agentName st) internal) cs)
    as [st2 out2].
  simpl in *. destruct IH as (Hm & Hs & Hl). rewrite Hm, <- app_assoc.
  repeat split; [exact Hs|]. constructor; [now exists (agentName st)|exact Hl].
Qed.

Lemma transfer_kept (st : LoopState) (stack0 : list string) (current next : string) :
  (length (stack st) <= length (stack_push stack0 current))%nat ->
  Kept st (transfer w st stack0 current next).2 (transfer w st stack0 current next).1.
Proof.
  intros Hlen. simpl. repeat split; [exact Hlen|].
  constructor; [now exists current|]. constructor; [exact I|constructor].
Qed.

Lemma handleEvent_kept (st : LoopState) (event : StreamEvent) :
  Kept st (handle st event).1.2 (handle st event).1.1.
Proof.
  destruct event as [data|name item|]; simpl; [| |apply Kept_refl].
  - destruct data as [output usage|]; simpl; [|apply Kept_refl].
    pose proof (onResponseOutputs_kept output st) as H.
    destruct (onResponseOutputs st output) as [st1 out1]. exact H.
  - destruct item as [target|status output callId nm| |status contents| |];
      simpl; try apply Kept_refl.
    + destruct (String.eqb name "handoff_occurred"); [|apply Kept_refl].
      destruct (String.eqb (agentName st) target); [apply Kept_refl|].
      simpl. repeat split.
      * unfold stack_push. rewrite length_app. simpl. lia.
      * constructor; [now exists (agentName st)|].
        constructor; [exact I|constructor].
    + destruct status, output; simpl; try apply Kept_refl.
      repeat split; [lia|]. constructor; [exact I|constructor].
    + destruct status; simpl; try apply Kept_refl.
      pose proof (onMessageContents_kept contents st) as H1.
      pose proof (onMessageContents_frame contents
                    (visibility_is agentConfig (agentName st) internal) st) as H2.
      simpl in H2.
      destruct (onMessageContents st _ contents) as [st1 out1]. simpl in H1, H2.
      destruct H2 as (Ha & Hs & _).
      destruct (visibility_is agentConfig (agentName st) internal); [|exact H1].
      destruct (getNextAgentName (stack st1) workflow) as [next stack1] eqn:Hnext.
      assert (Hstack1 : stack1 = removelast (stack st1)).
      { unfold getNextAgentName, stack_pop in Hnext. now injection Hnext. }
      apply (Kept_trans st st1 _ out1 _ H1).
      apply transfer_kept. subst stack1. apply length_removelast_push.
Qed.

Lemma processEvents_kept (events : list StreamEvent) (st : LoopState) :
  Kept st (sp_emitted (process st events)) (sp_state (process st events)).
Proof.
  revert st. induction events as [|e es IH]; intros st; [apply Kept_refl|].
  rewrite processEvents_cons. pose proof (handleEvent_kept st e) as H.
  destruct ((handle st e).2); [|exact H].
  cbv zeta. cbn [sp_state sp_emitted].
  exact (Kept_trans _ _ _ _ _ H (IH _)).
Qed.

Lemma turnLoop_kept (fuel iter : nat) (st : LoopState) :
  Kept st (lr_emitted (loop fuel iter st)) (lr_state (loop fuel iter st)).
Proof.
  revert iter st. induction fuel as [|fuel IH]; intros iter st; [apply Kept_refl|].
  rewrite turnLoop_S.
  destruct (JsObject.get agents (agentName st)) as [agent|]; [|apply Kept_refl].
  cbv zeta.
  set (result := run w (S iter) agent (convertMsgsInput (turnMsgs st))).
  pose proof (processEvents_kept (rs_events result) st) as Hp.
  pose proof (IH (S iter) (sp_state (process st (rs_events result)))) as Hrest.
  pose proof (Kept_trans _ _ _ _ _ Hp Hrest) as Hafter.
  destruct (sp_control (process st (rs_events result))); [|exact Hafter].
  destruct (rs_throws result); [exact Hp|].
  destruct (lastMessageCompletesTurn agentConfig _); [exact Hp|exact Hafter].
Qed.

(** The events the loop emits are exactly the messages it appends to the
    transcript, in the same order: the final transcript is the initial one
    followed by the emitted messages, so the transcript only grows and no
    message is appended without being emitted or emitted without being
    appended. *)
Theorem emitted_messages_are_appended (fuel iter : nat) (st : LoopState) :
  turnMsgs (lr_state (loop fuel iter st))
  = turnMsgs st ++ messagesOf (lr_emitted (loop fuel iter st)).
Proof. apply turnLoop_kept. Qed.

(** Within one invocation the call stack never gets shorter: an explicit
    hand-off pushes the current agent, and the hand-back of an internal
    agent pops one name and pushes the speaker in its place. *)
Theorem call_stack_never_shrinks (fuel iter : nat) (st : LoopState)
    (event : StreamEvent) :
  (length (stack st) <= length (stack (handle st event).1.1))%nat
  /\ (length (stack st) <= length (stack (lr_state (loop fuel iter st))))%nat.
Proof.
  split.
  - apply handleEvent_kept.
  - apply turnLoop_kept.
Qed.

(** Every assistant message the loop emits names its author, and a text
    message is labelled internal exactly when its author is configured
    internal; an author the configuration does not know is labelled
    external. *)
Theorem emitted_messages_well_labelled (fuel iter : nat) (st : LoopState) :
  Forall (wellLabelled agentConfig) (lr_emitted (loop fuel iter st)).
Proof. apply turnLoop_kept. Qed.

End LoopInvariants.

(** ** Function calls and hand-backs *)

Section EventEdges.

Context (w : World) (workflow : Workflow).
Context (agentConfig : JsObject.t WorkflowAgent).

#[local] Abbreviation handle := (handleEvent w workflow agentConfig).
#[local] Abbreviation process := (processEvents w workflow agentConfig).

Lemma onResponseOutputs_elem (outputs : list ResponseOutput) (st : LoopState)
    (e : OutEvent) :
  e ∈ (onResponseOutputs st outputs).2
  <-> exists callId name arguments,
        e = EvMessage (AssistantMessageWithToolCalls
                         [mkToolCall callId name arguments] (Some (agentName st)))
        /\ FunctionCallOutput callId name arguments ∈ outputs
        /\ String.prefix "transfer_to" name = false.
Proof.
  revert st. induction outputs as [|o os IH]; intros st; simpl.
  - split; [intros H; inversion H|].
    intros (callId & name & arguments & _ & H & _). inversion H.
  - destruct o as [callId name arguments|].
    + unfold startsWith_transfer_to.
      destruct (String.prefix "transfer_to" name) eqn:Hp; simpl.
      * rewrite IH. split.
        -- intros (c & n & a & -> & Hin & Hn). exists c, n, a.
           repeat split; [now right|exact Hn].
        -- intros (c & n & a & -> & Hin & Hn). exists c, n, a.
           repeat split; [|exact Hn].
           apply elem_of_cons in Hin as [[= -> -> ->]|Hin]; [congruence|exact Hin].
      * specialize (IH (push_emit st (AssistantMessageWithToolCalls
                          [mkToolCall callId name arguments]
                          (Some (agentName st)))).1).
        simpl in IH. destruct (onResponseOutputs _ os) as [st2 out2]. simpl in *.
        rewrite elem_of_cons, IH. split.
        -- intros [->|(c & n & a & -> & Hin & Hn)].
           ++ exists callId, name, arguments. repeat split; [now left|exact Hp].
           ++ exists c, n, a. repeat split; [now right|exact Hn].
        -- intros (c & n & a & -> & Hin & Hn).
           apply elem_of_cons in Hin as [[= -> -> ->]|Hin]; [now left|].
           right. exists c, n, a. now repeat split.
    + rewrite IH. split.
      * intros (c & n & a & -> & Hin & Hn). exists c, n, a.
        repeat split; [now right|exact Hn].
      * intros (c & n & a & -> & Hin & Hn). exists c, n, a.
        repeat split; [|exact Hn].
        apply elem_of_cons in Hin as [[=]|Hin]. exact Hin.
Qed.

(** A completed response records its function calls as tool-call messages
    of the active agent, one for each call whose name does not start with
    [transfer_to]; a call whose name starts with it is never recorded, and
    the active agent, the stack and the transfer counter stay as they
    are. *)
Theorem transfer_calls_not_recorded (st : LoopState) (outputs : list ResponseOutput)
    (usage : ResponseUsage) (e : OutEvent) :
  (e ∈ (handle st (RawModelStreamEvent (ResponseDone outputs usage))).1.2
   <-> exists callId name arguments,
         e = EvMessage (AssistantMessageWithToolCalls
                          [mkToolCall callId name arguments] (Some (agentName st)))
         /\ FunctionCallOutput callId name arguments ∈ outputs
         /\ String.prefix "transfer_to" name = false)
  /\ agentName (handle st (RawModelStreamEvent (ResponseDone outputs usage))).1.1
     = agentName st
  /\ stack (handle st (RawModelStreamEvent (ResponseDone outputs usage))).1.1
     = stack st
  /\ transferCounter (handle st (RawModelStreamEvent (ResponseDone outputs usage))).1.1
     = transferCounter st.
Proof.
  pose proof (onResponseOutputs_elem outputs st e) as Helem.
  pose proof (onResponseOutputs_frame outputs st) as Hframe.
  simpl in *. destruct (onResponseOutputs st outputs) as [st1 out1]. simpl in *.
  destruct Hframe as (Ha & Hs & Hc & _). split; [exact Helem|]. now repeat split.
Qed.

(** A message of an internal agent that finds the call stack empty hands
    control to the start agent of the workflow, the speaker included: the
    transfer is recorded in the transcript and counted even when the
    speaker is the start agent itself, and the speaker is pushed on the
    stack. *)
Theorem internal_message_on_empty_stack (st : LoopState) (name : string)
    (contents : list MessageContent) (rest : list StreamEvent) :
  visibility_is agentConfig (agentName st) internal = true ->
  stack st = [] ->
  agentName (sp_state (process st
    (RunItemStreamEvent name (MessageOutputItem_message completed contents) :: rest)))
    = startAgent workflow
  /\ stack (sp_state (process st
       (RunItemStreamEvent name (MessageOutputItem_message completed contents) :: rest)))
     = [agentName st]
  /\ sp_control (process st
       (RunItemStreamEvent name (MessageOutputItem_message completed contents) :: rest))
     = ContinueTurnLoop
  /\ AgentTransferCounter.get
       (transferCounter (sp_state (process st
          (RunItemStreamEvent name (MessageOutputItem_message completed contents)
           :: rest))))
       (agentName st) (startAgent workflow)
     = S (AgentTransferCounter.get (transferCounter st) (agentName st)
            (startAgent workflow)).
Proof.
  intros Hvis Hstack. rewrite processEvents_cons.
  unfold handleEvent. simpl. rewrite Hvis.
  pose proof (onMessageContents_frame contents true st) as H. simpl in H.
  destruct (onMessageContents st true contents) as [st1 out1]. simpl in H.
  destruct H as (Ha & Hs & Hc & _). rewrite Hs, Hstack. simpl.
  rewrite Ha, Hc. repeat split.
  unfold AgentTransferCounter.get, AgentTransferCounter.increment.
  rewrite lookup_insert_eq. simpl. lia.
Qed.

End EventEdges.

Lemma internal_message_on_empty_stack_witness :
  agentName (sp_state
    (processEvents (Examples.world Examples.chain_provider) Examples.chain_workflow
       (agentConfigOf Examples.chain_workflow)
       (mkLoopState Examples.hello [] "X" ∅ (mkUsage 0 0 0) 0%nat)
       [Examples.says "done"])) = "P"%string.
Proof.
  refine (proj1 (internal_message_on_empty_stack
                   (Examples.world Examples.chain_provider) Examples.chain_workflow
                   (agentConfigOf Examples.chain_workflow)
                   (mkLoopState Examples.hello [] "X" ∅ (mkUsage 0 0 0) 0%nat)
                   "message_output_created" [OutputText "done"] [] _ _)).
  - reflexivity.
  - reflexivity.
Defined.

(** ** Configuration maps *)

Lemma JsObject_get_set {V} (obj : JsObject.t V) (k k' : string) (v : V) :
  JsObject.get (JsObject.set obj k v) k'
  = if String.eqb k k' then Some v else JsObject.get obj k'.
Proof.
  induction obj as [|[k0 v0] obj IH]; simpl.
  - reflexivity.
  - destruct (String.eqb_spec k0 k) as [->|Hk0]; simpl.
    + destruct (String.eqb k k'); reflexivity.
    + rewrite IH. destruct (String.eqb_spec k0 k') as [->|Hk0']; [|reflexivity].
      destruct (String.eqb_spec k k') as [->|]; [now contradict Hk0|reflexivity].
Qed.

Lemma JsObject_get_elem {V} (obj : JsObject.t V) (k : string) :
  is_Some (JsObject.get obj k) <-> exists v, (k, v) ∈ obj.
Proof.
  induction obj as [|[k0 v0] obj IH]; simpl.
  - split; [intros [v Hv]; discriminate|intros [v Hv]; inversion Hv].
  - destruct (String.eqb_spec k0 k) as [->|Hk0].
    + split; [intros _; exists v0; now left|intros _; eauto].
    + rewrite IH. split.
      * intros [v Hv]. exists v. now right.
      * intros [v Hv]. apply elem_of_cons in Hv as [[= -> ->]|Hv];
          [now contradict Hk0|eauto].
Qed.

Lemma JsObject_get_Some_elem {V} (obj : JsObject.t V) (k : string) (v : V) :
  JsObject.get obj k = Some v -> exists k0, (k0, v) ∈ obj /\ k0 = k.
Proof.
  induction obj as [|[k0 v0] obj IH]; simpl; [discriminate|].
  destruct (String.eqb_spec k0 k) as [->|Hk0].
  - intros [= ->]. exists k. split; [now left|reflexivity].
  - intros H. destruct (IH H) as (k1 & Hin & ->). exists k. split; [now right|reflexivity].
Qed.

Lemma JsObject_set_keys {V} (obj : JsObject.t V) (k : string) (v : V) :
  NoDup obj.*1 -> NoDup (JsObject.set obj k v).*1
  /\ forall k', k' ∈ (JsObject.set obj k v).*1 <-> k' = k \/ k' ∈ obj.*1.
Proof.
  induction obj as [|[k0 v0] obj IH]; simpl; intros Hnd.
  - split; [repeat constructor; intros H; inversion H|].
    intros k'. rewrite list_elem_of_singleton, elem_of_nil. tauto.
  - apply NoDup_cons in Hnd as [Hk0 Hnd].
    destruct (String.eqb_spec k0 k) as [->|Hne]; simpl.
    + split; [now apply NoDup_cons|]. intros k'. rewrite elem_of_cons. tauto.
    + destruct (IH Hnd) as [IH1 IH2]. split.
      * apply NoDup_cons. split; [|exact IH1]. rewrite IH2. tauto.
      * intros k'. rewrite !elem_of_cons, IH2. tauto.
Qed.

Lemma last_app_cons {A} (l1 l2 : list A) (x : A) :
  last (l1 ++ x :: l2) = last (x :: l2).
Proof.
  induction l1 as [|y l1 IH]; [reflexivity|].
  simpl. rewrite <- IH. destruct (l1 ++ x :: l2) eqn:H; [|reflexivity].
  now destruct l1.
Qed.

(** The object built by folding [{ ...acc, [key x]: x }] over a list. *)
Lemma fold_set_get {V} (key : V -> string) (items : list V) (acc : JsObject.t V)
    (name : string) :
  JsObject.get (foldl (fun acc x => JsObject.set acc (key x) x) acc items) name
  = match last (List.filter (fun x => String.eqb (key x) name) items) with
    | Some x => Some x
    | None => JsObject.get acc name
    end.
Proof.
  revert acc. induction items as [|x items IH]; intros acc; [reflexivity|].
  cbn [foldl List.filter]. rewrite IH, JsObject_get_set.
  destruct (String.eqb (key x) name); [|reflexivity].
  rewrite last_cons_default.
  destruct (last (List.filter _ items)); reflexivity.
Qed.

Lemma fold_set_keys {V} (key : V -> string) (items : list V) (acc : JsObject.t V) :
  NoDup acc.*1 ->
  NoDup (foldl (fun acc x => JsObject.set acc (key x) x) acc items).*1.
Proof.
  revert acc. induction items as [|x items IH]; intros acc Hnd; [exact Hnd|].
  cbn [foldl]. apply IH. now apply JsObject_set_keys.
Qed.

(** The configuration maps are last-write-wins: looking a name up gives
    the last item of the list that bears it, so a project tool replaces a
    workflow tool of the same name, and a name no item bears is absent;
    each name is a key once. *)
Theorem mapConfig_last_write_wins (workflow : Workflow)
    (projectTools : list WorkflowTool) (name : string) :
  JsObject.get (agentConfigOf workflow) name
    = last (List.filter (fun a => String.eqb (wa_name a) name) (wf_agents workflow))
  /\ JsObject.get (toolConfigOf workflow projectTools) name
     = last (List.filter (fun t => String.eqb (wt_name t) name)
                         (wf_tools workflow ++ projectTools))
  /\ JsObject.get (promptConfigOf workflow) name
     = last (List.filter (fun p => String.eqb (wp_name p) name) (wf_prompts workflow))
  /\ (forall p, p ∈ projectTools -> wt_name p = name ->
        exists p', JsObject.get (toolConfigOf workflow projectTools) name = Some p'
                   /\ p' ∈ projectTools)
  /\ NoDup (agentConfigOf workflow).*1
  /\ NoDup (toolConfigOf workflow projectTools).*1.
Proof.
  unfold agentConfigOf, toolConfigOf, promptConfigOf.
  rewrite !fold_set_get. simpl.
  split; [now destruct (last _)|]. split; [now destruct (last _)|].
  split; [now destruct (last _)|]. split; [|split; apply fold_set_keys; constructor].
  intros p Hp Hname.
  rewrite List.filter_app.
  assert (Hin : p ∈ List.filter (fun t => String.eqb (wt_name t) name) projectTools).
  { apply list_elem_of_In, filter_In. split; [now apply list_elem_of_In|].
    now apply String.eqb_eq. }
  destruct (List.filter _ projectTools) as [|q qs] eqn:Hf; [inversion Hin|].
  rewrite last_app_cons.
  destruct (last (q :: qs)) as [p'|] eqn:Hlast;
    [|rewrite last_cons_default in Hlast; discriminate].
  exists p'. split; [reflexivity|].
  assert (Hp' : p' ∈ q :: qs).
  { apply last_Some in Hlast as [l' ->]. apply elem_of_app. right. now left. }
  rewrite <- Hf in Hp'. apply list_elem_of_In, filter_In in Hp' as [Hp' _].
  now apply list_elem_of_In.
Qed.

(** ** The tool registry *)

Lemma JsObject_is_Some_set {V} (obj : JsObject.t V) (k name : string) (v : V) :
  is_Some (JsObject.get (JsObject.set obj k v) name)
  <-> name = k \/ is_Some (JsObject.get obj name).
Proof.
  rewrite JsObject_get_set. destruct (String.eqb_spec k name) as [->|Hne].
  - split; [now left|intros _; eauto].
  - split; [now right|intros [->|H]; [now contradict Hne|exact H]].
Qed.

Section RegistryProperties.

Context (w : World) (workflow : Workflow).

Lemma createTools_step_ok (tools : JsObject.t Tool) (k : string) (c : WorkflowTool) :
  lacksComposioData c = false ->
  exists tools', createTools_step w workflow tools (k, c) = Ok tools'
    /\ forall name, is_Some (JsObject.get tools' name)
                    <-> is_Some (JsObject.get tools name)
                        \/ (name = k /\ supportedTool c = true).
Proof.
  unfold lacksComposioData, supportedTool, createTools_step, createComposioTool.
  destruct (wt_isMcp c), (wt_isComposio c), (wt_composioData c), (wt_mockTool c);
    simpl; try discriminate; intros _; eexists; (split; [reflexivity|]);
    intros name; rewrite ?JsObject_is_Some_set; intuition discriminate.
Qed.

Lemma createTools_step_throw (tools : JsObject.t Tool) (k : string) (c : WorkflowTool) :
  lacksComposioData c = true ->
  createTools_step w workflow tools (k, c)
  = Throw (new_Error ("composio data not found for tool " +:+ wt_name c)).
Proof.
  unfold lacksComposioData, createTools_step, createComposioTool.
  destruct (wt_isMcp c), (wt_isComposio c), (wt_composioData c);
    simpl; try discriminate; reflexivity.
Qed.

Lemma createTools_fold_throw (entries : list (string * WorkflowTool)) (e : Error) :
  foldl (fun acc entry => tools ← acc; createTools_step w workflow tools entry)
        (Throw e) entries = Throw e.
Proof. induction entries as [|x xs IH]; [reflexivity|exact IH]. Qed.

Lemma createTools_fold_ok (entries : list (string * WorkflowTool))
    (acc : JsObject.t Tool) :
  (forall k c, (k, c) ∈ entries -> lacksComposioData c = false) ->
  exists tools,
    foldl (fun acc entry => tools ← acc; createTools_step w workflow tools entry)
          (Ok acc) entries = Ok tools
    /\ forall name, is_Some (JsObject.get tools name)
                    <-> is_Some (JsObject.get acc name)
                        \/ exists c, (name, c) ∈ entries /\ supportedTool c = true.
Proof.
  revert acc. induction entries as [|[k c] entries IH]; intros acc Hok.
  - exists acc. split; [reflexivity|]. intros name. split; [now left|].
    intros [H|(c & Hin & _)]; [exact H|inversion Hin].
  - destruct (createTools_step_ok acc k c) as (acc' & Hstep & Hkeys).
    { apply (Hok k). now left. }
    destruct (IH acc') as (tools & Hfold & Htools).
    { intros k' c' Hin. apply (Hok k'). now right. }
    exists tools. cbn [foldl]. change (tools ← Ok acc; _) with
      (createTools_step w workflow acc (k, c)).
    rewrite Hstep. split; [exact Hfold|].
    intros name. rewrite Htools, Hkeys. split.
    + intros [[H|[-> Hs]]|(c' & Hin & Hs)]; [now left| |].
      * right. exists c. split; [now left|exact Hs].
      * right. exists c'. split; [now right|exact Hs].
    + intros [H|(c' & Hin & Hs)]; [now left; left|].
      apply elem_of_cons in Hin as [[= -> ->]|Hin]; [left; right; now split|].
      right. eauto.
Qed.

Lemma createTools_first_missing (pre post : list (string * WorkflowTool))
    (k : string) (c : WorkflowTool) :
  (forall k' c', (k', c') ∈ pre -> lacksComposioData c' = false) ->
  lacksComposioData c = true ->
  createTools w workflow (pre ++ (k, c) :: post)
  = Throw (new_Error ("composio data not found for tool " +:+ wt_name c)).
Proof.
  intros Hpre Hc. unfold createTools, JsObject.entries. rewrite foldl_app.
  destruct (createTools_fold_ok pre JsObject.empty Hpre) as (tools & -> & _).
  cbn [foldl]. change (tools0 ← Ok tools; _) with
    (createTools_step w workflow tools (k, c)).
  rewrite (createTools_step_throw tools k c Hc). apply createTools_fold_throw.
Qed.

(** The registry holds a handler for exactly the configured tools that
    carry one of the three markers; a tool without any is skipped and does
    not fail the build.  The build fails only for a tool that is marked
    Composio, is not marked MCP, and has no Composio data, and then with
    the error naming the first such tool. *)
Theorem createTools_registry (toolConfig : JsObject.t WorkflowTool) :
  ((forall k c, (k, c) ∈ toolConfig -> lacksComposioData c = false) ->
   exists tools,
     createTools w workflow toolConfig = Ok tools
     /\ forall name, is_Some (JsObject.get tools name)
                     <-> exists c, (name, c) ∈ toolConfig /\ supportedTool c = true)
  /\ (forall pre k c post,
        toolConfig = pre ++ (k, c) :: post ->
        (forall k' c', (k', c') ∈ pre -> lacksComposioData c' = false) ->
        lacksComposioData c = true ->
        createTools w workflow toolConfig
        = Throw (new_Error ("composio data not found for tool " +:+ wt_name c))).
Proof.
  split.
  - intros Hok.
    destruct (createTools_fold_ok toolConfig JsObject.empty Hok) as (tools & H & Hk).
    exists tools. split; [exact H|]. intros name. rewrite Hk. split.
    + intros [[v Hv]|H']; [discriminate|exact H'].
    + intros H'. now right.
  - intros pre k c post -> Hpre Hc. now apply createTools_first_missing.
Qed.

Lemma first_missing_split (entries : list (string * WorkflowTool)) :
  (exists k c, (k, c) ∈ entries /\ lacksComposioData c = true) ->
  exists pre k c post,
    entries = pre ++ (k, c) :: post
    /\ (forall k' c', (k', c') ∈ pre -> lacksComposioData c' = false)
    /\ lacksComposioData c = true.
Proof.
  induction entries as [|[k0 c0] entries IH]; intros (k & c & Hin & Hc);
    [inversion Hin|].
  destruct (lacksComposioData c0) eqn:Hc0.
  - exists [], k0, c0, entries. split; [reflexivity|]. split; [|exact Hc0].
    intros k' c' H. inversion H.
  - apply elem_of_cons in Hin as [[= -> ->]|Hin]; [congruence|].
    destruct IH as (pre & k1 & c1 & post & -> & Hpre & Hc1); [eauto|].
    exists ((k0, c0) :: pre), k1, c1, post. split; [reflexivity|].
    split; [|exact Hc1].
    intros k' c' H. apply elem_of_cons in H as [[= -> ->]|H]; [exact Hc0|eauto].
Qed.

End RegistryProperties.

(** A Composio tool without its Composio data, in the workflow or among
    the project tools, fails every invocation that is not a greeting
    before the loop starts: nothing is emitted and the provider is never
    run, whether or not an agent uses the tool. *)
Theorem missing_composio_data_fails_invocation (w : World) (fuel : nat)
    (workflow : Workflow) (projectTools : list WorkflowTool)
    (messages : list Message) (name : string) (c : WorkflowTool) :
  onlySystemMessage (ensureSystemMessage messages) = false ->
  JsObject.get (toolConfigOf workflow projectTools) name = Some c ->
  lacksComposioData c = true ->
  exists c',
    lacksComposioData c' = true
    /\ streamResponse w fuel workflow projectTools messages
       = mkInvocation
           (Thrown (new_Error ("composio data not found for tool " +:+ wt_name c')))
           [] [].
Proof.
  intros Hgreeting Hget Hc.
  destruct (JsObject_get_Some_elem _ _ _ Hget) as (k & Hin & _).
  destruct (first_missing_split (toolConfigOf workflow projectTools))
    as (pre & k1 & c1 & post & Hsplit & Hpre & Hc1); [eauto|].
  exists c1. split; [exact Hc1|].
  unfold streamResponse. rewrite Hgreeting, Hsplit.
  now rewrite (createTools_first_missing w workflow pre post k1 c1 Hpre Hc1).
Qed.

Lemma missing_composio_data_fails_invocation_witness :
  exists c',
    lacksComposioData c' = true
    /\ streamResponse (Examples.world Examples.greeter_provider) 5
         Examples.greeter_workflow [Examples.broken_composio_tool] Examples.hello
       = mkInvocation
           (Thrown (new_Error ("composio data not found for tool " +:+ wt_name c')))
           [] [].
Proof.
  refine (missing_composio_data_fails_invocation
            (Examples.world Examples.greeter_provider) 5 Examples.greeter_workflow
            [Examples.broken_composio_tool] Examples.hello "send_mail"
            Examples.broken_composio_tool _ _ _); reflexivity.
Defined.

(** ** The agent graph *)

Section GraphProperties.

Context (w : World).

Lemma createAgent_ok (config : WorkflowAgent) (tools : JsObject.t Tool)
    (projectTools : list WorkflowTool) (workflow : Workflow) :
  exists a entities,
    createAgent w config tools projectTools workflow = Ok (a, entities)
    /\ agent_name a = wa_name config
    /\ agent_model a = wa_model config
    /\ agent_temperature a = 0
    /\ (has_ragDataSources config = true ->
        exists t, last (agent_tools a) = Some t /\ tool_name t = "rag_search"%string).
Proof.
  unfold createAgent.
  destruct (sanitizeTextWithMentions w _ workflow projectTools) as [sanitized entities].
  unfold createRagTool.
  destruct (has_ragDataSources config) eqn:Hrag; simpl;
    eexists; eexists; (split; [reflexivity|]); simpl; repeat split;
    try discriminate.
  intros _. eexists. rewrite last_snoc. split; reflexivity.
Qed.

Lemma createAgents_build_fold (workflow : Workflow) (tools : JsObject.t Tool)
    (projectTools : list WorkflowTool) (entries : list (string * WorkflowAgent))
    (accA : JsObject.t Agent) (accM : JsObject.t (list ConnectedEntity)) :
  (forall name a, JsObject.get accA name = Some a -> agent_temperature a = 0) ->
  exists agents mentions,
    foldl (fun acc entry =>
             '(agents, mentions) ← acc;
             '(agent, entities) ← createAgent w entry.2 tools projectTools workflow;
             mret (JsObject.set agents entry.1 agent,
                   JsObject.set mentions entry.1 entities))
          (Ok (accA, accM)) entries = Ok (agents, mentions)
    /\ (forall name, is_Some (JsObject.get agents name)
                     <-> is_Some (JsObject.get accA name)
                         \/ exists c, (name, c) ∈ entries)
    /\ (forall name a, JsObject.get agents name = Some a -> agent_temperature a = 0).
Proof.
  revert accA accM. induction entries as [|[k c] entries IH]; intros accA accM Hacc.
  - exists accA, accM. split; [reflexivity|]. split; [|exact Hacc].
    intros name. split; [now left|]. intros [H|(c & Hin)]; [exact H|inversion Hin].
  - destruct (createAgent_ok c tools projectTools workflow)
      as (a & entities & Hcreate & _ & _ & Htemp & _).
    destruct (IH (JsObject.set accA k a) (JsObject.set accM k entities))
      as (agents & mentions & Hfold & Hkeys & Htemps).
    { intros name a'. rewrite JsObject_get_set.
      destruct (String.eqb k name); [now intros [= <-]|apply Hacc]. }
    exists agents, mentions. cbn [foldl].
    change (foldl ?f (_ ≫= _) entries)
      with (foldl f ('(agent, entities0) ← createAgent w c tools projectTools workflow;
                     mret (JsObject.set accA k agent,
                           JsObject.set accM k entities0)) entries).
    rewrite Hcreate. split; [exact Hfold|]. split; [|exact Htemps].
    intros name. rewrite Hkeys, JsObject_is_Some_set. split.
    + intros [[->|H]|(c' & Hin)]; [right; exists c; now left|now left|].
      right. exists c'. now right.
    + intros [H|(c' & Hin)]; [left; now right|].
      apply elem_of_cons in Hin as [[= -> ->]|Hin]; [left; now left|right; eauto].
Qed.

Lemma createAgents_wire_get (table : JsObject.t Agent)
    (mentions : JsObject.t (list ConnectedEntity)) (agents : JsObject.t Agent)
    (name : string) :
  JsObject.get
    (map (fun entry : string * Agent =>
            (entry.1,
             set_handoffs entry.2
               (List.filter (fun e => bool_decide (is_Some (JsObject.get table e)))
                  (map ce_name
                     (List.filter is_agent_entity
                        (default [] (JsObject.get mentions entry.1)))))))
         agents) name
  = (fun a => set_handoffs a
       (List.filter (fun e => bool_decide (is_Some (JsObject.get table e)))
          (map ce_name
             (List.filter is_agent_entity
                (default [] (JsObject.get mentions name))))))
    <$> JsObject.get agents name.
Proof.
  induction agents as [|[k a] agents IH]; [reflexivity|].
  cbn [map JsObject.get fst snd].
  destruct (String.eqb_spec k name) as [->|Hne]; [reflexivity|exact IH].
Qed.

Lemma createAgents_ok (workflow : Workflow)
    (agentConfig : JsObject.t WorkflowAgent) (tools : JsObject.t Tool)
    (projectTools : list WorkflowTool) :
  exists agents mentions,
    createAgents w workflow agentConfig tools projectTools = Ok (agents, mentions)
    /\ (forall name, is_Some (JsObject.get agents name)
                     <-> is_Some (JsObject.get agentConfig name))
    /\ (forall name a, JsObject.get agents name = Some a ->
          agent_temperature a = 0
          /\ forall h, h ∈ agent_handoffs a -> is_Some (JsObject.get agents h)).
Proof.
  destruct (createAgents_build_fold workflow tools projectTools
              (JsObject.entries agentConfig) JsObject.empty JsObject.empty)
    as (agents & mentions & Hbuild & Hkeys & Htemps).
  { intros name a H. discriminate. }
  exists (createAgents_wire agents mentions), mentions.
  unfold createAgents, createAgents_build. rewrite Hbuild.
  split; [reflexivity|].
  assert (Hwire : forall name,
            is_Some (JsObject.get (createAgents_wire agents mentions) name)
            <-> is_Some (JsObject.get agents name)).
  { intros name. unfold createAgents_wire. rewrite createAgents_wire_get.
    apply fmap_is_Some. }
  split.
  - intros name. rewrite Hwire, Hkeys, (JsObject_get_elem agentConfig name).
    unfold JsObject.entries. split.
    + intros [[v Hv]|H]; [inversion Hv|exact H].
    + intros H. now right.
  - intros name a. unfold createAgents_wire at 1. rewrite createAgents_wire_get.
    destruct (JsObject.get agents name) as [a0|] eqn:Ha0; [|discriminate].
    intros [= <-]. split; [exact (Htemps name a0 Ha0)|].
    intros h Hh. simpl in Hh. apply list_elem_of_In, filter_In in Hh as [_ Hh].
    apply bool_decide_eq_true in Hh. now apply Hwire.
Qed.

(** Building the agent graph never fails: the data-source check of the
    RAG tool cannot fire, the tool being built only for an agent that has
    data sources.  The graph holds an agent for exactly the configured
    names, every agent runs at temperature 0, and every hand-off of an
    agent leads to an agent of the graph. *)
Theorem createAgents_graph (workflow : Workflow)
    (agentConfig : JsObject.t WorkflowAgent) (tools : JsObject.t Tool)
    (projectTools : list WorkflowTool) :
  is_ok (createAgents w workflow agentConfig tools projectTools) = true
  /\ exists agents mentions,
       createAgents w workflow agentConfig tools projectTools = Ok (agents, mentions)
       /\ (forall name, is_Some (JsObject.get agents name)
                        <-> is_Some (JsObject.get agentConfig name))
       /\ (forall name a, JsObject.get agents name = Some a ->
             agent_temperature a = 0
             /\ forall h, h ∈ agent_handoffs a -> is_Some (JsObject.get agents h)).
Proof.
  destruct (createAgents_ok workflow agentConfig tools projectTools)
    as (agents & mentions & Hok & Hkeys & Hagents).
  split; [now rewrite Hok|]. now exists agents, mentions.
Qed.

End GraphProperties.




(** ** The invocation helpers of the tools *)

Section InvocationProperties.

Context (w : World).

(** A Composio tool marked no-auth is executed without looking the project
    up and without a connected account.  Any other Composio tool is
    executed only with the non-empty connected-account id the project
    stores for the toolkit: when the invocation returns a value, that id
    exists and is the one passed on; without a project row the invocation
    throws and nothing is executed. *)
Theorem invokeComposioTool_account (pid name : string) (composioData : ComposioData)
    (input : Json) :
  (cd_noAuth composioData = true ->
     invokeComposioTool w pid name composioData input
     = composio_tools_execute w (cd_slug composioData) pid input None)
  /\ (cd_noAuth composioData = false ->
      forall data,
        invokeComposioTool w pid name composioData input = Ok data ->
        exists project accounts id,
          projectsCollection_findOne w pid = Ok (Some project)
          /\ composioConnectedAccounts project = Some accounts
          /\ accounts !! cd_toolkitSlug composioData = Some id
          /\ id <> ""%string
          /\ composio_tools_execute w (cd_slug composioData) pid input (Some id)
             = Ok data)
  /\ (cd_noAuth composioData = false ->
      projectsCollection_findOne w pid = Ok None ->
      invokeComposioTool w pid name composioData input
      = Throw (new_Error ("project " +:+ pid +:+ " not found"))).
Proof.
  unfold invokeComposioTool. split; [|split].
  - intros ->. simpl.
    now destruct (composio_tools_execute w (cd_slug composioData) pid input None).
  - intros -> data. simpl.
    destruct (projectsCollection_findOne w pid) as [[project|]|e]; simpl;
      try discriminate.
    destruct (composioConnectedAccounts project) as [accounts|] eqn:Hacc; simpl;
      try discriminate.
    destruct (accounts !! cd_toolkitSlug composioData) as [id|] eqn:Hid; simpl;
      try discriminate.
    destruct (truthy id) eqn:Htruthy; simpl; try discriminate.
    destruct (composio_tools_execute w (cd_slug composioData) pid input (Some id))
      as [d|e] eqn:Hexec; simpl; try discriminate.
    intros [= <-]. exists project, accounts, id. repeat split; try assumption.
    intros ->. discriminate.
  - intros -> ->. reflexivity.
Qed.

(** The result content of an MCP tool by the step that fails first: a
    failed connection, a failed call, and a failed close each give the
    error payload of that step, so a close that fails discards the result
    the call returned; the result is reported only when all three steps
    succeed. *)
Theorem mcp_tool_outcomes (config : WorkflowTool) (pid : string) (input : Json) :
  match getMcpClient w (opt_or (wt_mcpServerURL config) "")
          (opt_or (wt_mcpServerName config) "") with
  | Throw e =>
      tool_execute (createMcpTool w config pid) input
      = Ok (JSON_stringify w
              (JObj [("error"%string, JStr ("Tool execution failed: " +:+ toString e))]))
  | Ok client =>
      match client_callTool w client (wt_name config) input with
      | Throw e =>
          tool_execute (createMcpTool w config pid) input
          = Ok (JSON_stringify w
                  (JObj [("error"%string,
                          JStr ("Tool execution failed: " +:+ toString e))]))
      | Ok result =>
          match client_close w client with
          | Throw e =>
              tool_execute (createMcpTool w config pid) input
              = Ok (JSON_stringify w
                      (JObj [("error"%string,
                              JStr ("Tool execution failed: " +:+ toString e))]))
          | Ok _ =>
              tool_execute (createMcpTool w config pid) input
              = Ok (JSON_stringify w (JObj [("result"%string, result)]))
          end
      end
  end.
Proof.
  unfold createMcpTool, invokeMcpTool. simpl.
  replace (or_else (opt_or (wt_mcpServerName config) "") "")
    with (opt_or (wt_mcpServerName config) "").
  2:{ unfold or_else. now destruct (truthy (opt_or (wt_mcpServerName config) "")) eqn:H;
        [|apply truthy_false_iff in H]. }
  destruct (getMcpClient w _ _) as [client|e]; [|reflexivity]. simpl.
  destruct (client_callTool w client (wt_name config) input) as [result|e];
    [|reflexivity]. simpl.
  destruct (client_close w client) as [[]|e]; reflexivity.
Qed.

Lemma validSourceIds_elem (pid : string) (sourceIds : list string)
    (rows : list DataSource) (id : string) :
  id ∈ validSourceIds sourceIds
         (List.filter (fun s => String.eqb (ds_projectId s) pid && ds_active s) rows)
  <-> id ∈ sourceIds
      /\ exists s, s ∈ rows /\ ds_id s = id /\ ds_projectId s = pid
                   /\ ds_active s = true.
Proof.
  unfold validSourceIds. rewrite list_elem_of_In, in_map_iff. split.
  - intros (s & <- & Hs). apply filter_In in Hs as [Hs _].
    apply filter_In in Hs as [Hs Hinc]. apply filter_In in Hs as [Hs Hp].
    apply andb_true_iff in Hp as [Hp Ha]. apply String.eqb_eq in Hp.
    unfold includes in Hinc. apply existsb_exists in Hinc as (x & Hx & Heq).
    apply String.eqb_eq in Heq. subst x. split; [now apply list_elem_of_In|].
    exists s. repeat split; try assumption. now apply list_elem_of_In.
  - intros (Hid & s & Hs & <- & Hp & Ha). exists s. split; [reflexivity|].
    apply filter_In. split; [|exact Ha]. apply filter_In. split.
    + apply filter_In. split; [now apply list_elem_of_In|].
      apply andb_true_iff. split; [now apply String.eqb_eq|exact Ha].
    + unfold includes. apply existsb_exists. exists (ds_id s).
      split; [now apply list_elem_of_In|apply String.eqb_refl].
Qed.

(** The vector search of the RAG tool is restricted to the data sources
    that are configured for the tool and active for the project: the ids
    it passes on are exactly those, and in chunk mode the outcome of the
    search, hits or error, is the outcome of the invocation. *)
Theorem rag_search_restricted_to_active_sources (pid query : string)
    (sourceIds : list string) (k : Z) (embedding : list Z) (rows : list DataSource) :
  embed w query = Ok embedding ->
  dataSourcesCollection w = Ok rows ->
  (forall id,
     id ∈ validSourceIds sourceIds
            (List.filter (fun s => String.eqb (ds_projectId s) pid && ds_active s) rows)
     <-> id ∈ sourceIds
         /\ exists s, s ∈ rows /\ ds_id s = id /\ ds_projectId s = pid
                      /\ ds_active s = true)
  /\ (validSourceIds sourceIds
        (List.filter (fun s => String.eqb (ds_projectId s) pid && ds_active s) rows)
      <> [] ->
      invokeRagTool w pid query sourceIds chunks k
      = qdrantClient_query w embedding pid
          (validSourceIds sourceIds
             (List.filter (fun s => String.eqb (ds_projectId s) pid && ds_active s)
                          rows))
          k).
Proof.
  intros Hembed Hrows. split; [intros id; apply validSourceIds_elem|].
  intros Hvalid. unfold invokeRagTool, dataSourcesCollection_find.
  rewrite Hembed, Hrows. simpl.
  destruct (validSourceIds sourceIds _) as [|v vs]; [now contradict Hvalid|].
  simpl. now destruct (qdrantClient_query w embedding pid (v :: vs) k).
Qed.


End InvocationProperties.

Lemma rag_search_restricted_to_active_sources_witness :
  invokeRagTool Scenarios.rag_world "proj" "refund policy"
    ["src-1"%string; "src-2"%string] chunks 3
  = qdrantClient_query Scenarios.rag_world [1; 2; 3] "proj" ["src-2"%string] 3.
Proof.
  refine (proj2 (rag_search_restricted_to_active_sources Scenarios.rag_world "proj"
                   "refund policy" ["src-1"%string; "src-2"%string] 3 [1; 2; 3]
                   Examples.sources _ _) _).
  - reflexivity.
  - reflexivity.
  - discriminate.
Defined.


(** ** [getResponse] *)

Lemma getResponse_fold (events : list OutEvent) (acc : Response) :
  Forall isMessageEvent events ->
  foldl getResponse_step acc events
  = mkResponse
      (resp_messages acc
       ++ List.filter (fun m => role_eqb (role m) assistant) (messagesOf events))
      (resp_usage acc).
Proof.
  intros Hmsgs. revert acc. induction Hmsgs as [|e events He _ IH]; intros acc.
  - simpl. rewrite app_nil_r. now destruct acc.
  - destruct e as [m|u]; [|destruct He]. cbn [foldl]. rewrite IH.
    rewrite messagesOf_message. simpl.
    destruct (role_eqb (role m) assistant); simpl; [|reflexivity].
    now rewrite <- app_assoc.
Qed.

Lemma streamResponse_events (w : World) (fuel : nat) (workflow : Workflow)
    (projectTools : list WorkflowTool) (messages : list Message) :
  inv_outcome (streamResponse w fuel workflow projectTools messages) = TurnComplete ->
  exists evs,
    inv_events (streamResponse w fuel workflow projectTools messages)
      = evs ++ [EvUsage (usageSum
                  (inv_read (streamResponse w fuel workflow projectTools messages)))]
    /\ Forall isMessageEvent evs.
Proof.
  unfold streamResponse.
  destruct (onlySystemMessage (ensureSystemMessage messages)).
  { intros _. eexists [_]. split; [reflexivity|]. repeat constructor. }
  destruct (createTools w workflow (toolConfigOf workflow projectTools))
    as [tools|e]; [|discriminate].
  destruct (createAgents w workflow (agentConfigOf workflow) tools projectTools)
    as [[agents mentions]|e]; [|discriminate].
  cbv zeta.
  pose proof (turnLoop_usage w workflow (agentConfigOf workflow) agents fuel 0%nat
                (initialState workflow (ensureSystemMessage messages))) as [Hu Hm].
  destruct (lr_outcome _) eqn:Hout; try discriminate.
  intros _. simpl. eexists. split; [|exact Hm].
  rewrite Hu. unfold initialState.
  destruct (getNextAgentName _ workflow) as [name stack0]. simpl.
  now rewrite usage_add_0_l.
Qed.

(** [getResponse] resolves exactly when the invocation returns.  Its
    messages are the emitted messages with the assistant role, in order:
    text messages and tool-call records are kept, tool results are left
    out.  Its usage is the final snapshot, the sum of the usage blocks of
    the provider events read. *)
Theorem getResponse_collects (w : World) (fuel : nat) (workflow : Workflow)
    (projectTools : list WorkflowTool) (messages : list Message) (r : Response) :
  getResponse w fuel workflow projectTools messages = Resolved r ->
  inv_outcome (streamResponse w fuel workflow projectTools messages) = TurnComplete
  /\ resp_messages r
     = List.filter (fun m => role_eqb (role m) assistant)
         (messagesOf (inv_events (streamResponse w fuel workflow projectTools messages)))
  /\ Forall (fun m => role m = assistant) (resp_messages r)
  /\ resp_usage r
     = usageSum (inv_read (streamResponse w fuel workflow projectTools messages)).
Proof.
  unfold getResponse. cbv zeta.
  destruct (inv_outcome (streamResponse w fuel workflow projectTools messages))
    eqn:Hout; try discriminate.
  intros [= <-]. split; [reflexivity|].
  destruct (streamResponse_events w fuel workflow projectTools messages Hout)
    as (evs & -> & Hevs).
  rewrite foldl_app, (getResponse_fold evs _ Hevs). simpl.
  rewrite messagesOf_app, List.filter_app. simpl. rewrite app_nil_r.
  split; [reflexivity|]. split; [|reflexivity].
  apply Forall_forall. intros m Hm. apply list_elem_of_In, filter_In in Hm as [_ Hm].
  now apply role_eqb_eq.
Qed.

Lemma getResponse_collects_witness :
  resp_messages
    (mkResponse
       [AssistantMessageWithToolCalls [mkToolCall "call-1" "lookup" "{}"]
          (Some "A"%string);
        AssistantMessage "The answer is 42." (Some "A"%string) external_response]
       (mkUsage 12 9 3))
  = List.filter (fun m => role_eqb (role m) assistant)
      (messagesOf (inv_events (streamResponse
         (Examples.world Scenarios.tool_provider) 3 Examples.greeter_workflow []
         Examples.hello))).
Proof.
  refine (proj1 (proj2 (getResponse_collects
                          (Examples.world Scenarios.tool_provider) 3
                          Examples.greeter_workflow [] Examples.hello _ _))).
  vm_compute. reflexivity.
Defined.

(** ** Streams, iterations and the end of the invocation *)

Section StreamProperties.

Context (w : World) (workflow : Workflow).
Context (agentConfig : JsObject.t WorkflowAgent) (agents : JsObject.t Agent).

#[local] Abbreviation handle := (handleEvent w workflow agentConfig).
#[local] Abbreviation process := (processEvents w workflow agentConfig).
#[local] Abbreviation loop := (turnLoop w workflow agentConfig agents).

(** A stream read in two parts: when the first part ends without a
    re-entry, the pass goes on with the second part from the state the
    first part left. *)
Lemma processEvents_app (pre rest : list StreamEvent) (st : LoopState) :
  sp_control (process st pre) = NextEvent ->
  process st (pre ++ rest)
  = mkStreamPass
      (sp_state (process (sp_state (process st pre)) rest))
      (sp_emitted (process st pre)
       ++ sp_emitted (process (sp_state (process st pre)) rest))
      (sp_read (process st pre)
       ++ sp_read (process (sp_state (process st pre)) rest))
      (sp_control (process (sp_state (process st pre)) rest)).
Proof.
  revert st. induction pre as [|e pre IH]; intros st Hc.
  - simpl. now destruct (processEvents w workflow agentConfig st rest).
  - change ((e :: pre) ++ rest) with (e :: (pre ++ rest)).
    rewrite !processEvents_cons in *.
    destruct ((handle st e).2); [|discriminate].
    cbv zeta in *. cbn [sp_control sp_state sp_emitted sp_read] in *.
    rewrite (IH _ Hc). cbn [sp_control sp_state sp_emitted sp_read].
    now rewrite app_assoc.
Qed.

Lemma visibility_exclusive (name : string) :
  visibility_is agentConfig name user_facing = true ->
  visibility_is agentConfig name internal = false.
Proof.
  unfold visibility_is. destruct (JsObject.get agentConfig name) as [c|];
    [|discriminate].
  now destruct (wa_outputVisibility c).
Qed.

Lemma onMessageContents_last_or_same (contents : list MessageContent)
    (isInternal : bool) (st : LoopState) :
  (exists text rt,
     last (turnMsgs (onMessageContents st isInternal contents).1)
     = Some (AssistantMessage text (Some (agentName st)) rt))
  \/ ((forall text, OutputText text ∉ contents)
      /\ turnMsgs (onMessageContents st isInternal contents).1 = turnMsgs st).
Proof.
  revert st. induction contents as [|c cs IH]; intros st.
  - right. split; [intros text H; inversion H|reflexivity].
  - simpl. destruct c as [t|].
    + left.
      specialize (IH (push_emit st (AssistantMessage t (Some (agentName st))
                        (if isInternal then internal_response
                         else external_response))).1).
      simpl in IH. destruct (onMessageContents _ isInternal cs) as [st2 out2].
      simpl in *. destruct IH as [IH|[_ ->]]; [exact IH|].
      rewrite last_snoc. eauto.
    + destruct (IH st) as [H|[Hnone Hsame]]; [now left|right].
      split; [|exact Hsame].
      intros text Hin. apply elem_of_cons in Hin as [[=]|Hin]. now apply (Hnone text).
Qed.

Lemma onMessageContents_last (contents : list MessageContent) (isInternal : bool)
    (st : LoopState) :
  (exists text, OutputText text ∈ contents) ->
  exists text rt,
    last (turnMsgs (onMessageContents st isInternal contents).1)
    = Some (AssistantMessage text (Some (agentName st)) rt).
Proof.
  intros [text Hin].
  destruct (onMessageContents_last_or_same contents isInternal st) as [H|[Hnone _]];
    [exact H|].
  now destruct (Hnone text).
Qed.

(** A text answer of a user-facing agent that closes the provider stream
    ends the turn in that very iteration, whatever the stream did before
    it without re-entry (tool calls, hand-offs): the loop exits with the
    agent that answered still active. *)
Theorem user_facing_answer_completes_turn (fuel iter : nat) (st : LoopState)
    (agent : Agent) (pre : list StreamEvent) (name : string)
    (contents : list MessageContent) (text : string) :
  JsObject.get agents (agentName st) = Some agent ->
  run w (S iter) agent (convertMsgsInput (turnMsgs st))
    = mkRunStream
        (pre ++ [RunItemStreamEvent name
                   (MessageOutputItem_message completed contents)])
        None ->
  sp_control (process st pre) = NextEvent ->
  visibility_is agentConfig (agentName (sp_state (process st pre))) user_facing
    = true ->
  OutputText text ∈ contents ->
  lr_outcome (loop (S fuel) iter st) = TurnComplete
  /\ lr_iter (loop (S fuel) iter st) = S iter
  /\ agentName (lr_state (loop (S fuel) iter st))
     = agentName (sp_state (process st pre)).
Proof.
  intros Hget Hrun Hpre Hvis Htext.
  rewrite turnLoop_S, Hget. cbv zeta. rewrite Hrun. cbn [rs_events rs_throws].
  rewrite (processEvents_app pre _ st Hpre).
  cbn [sp_control sp_state sp_emitted sp_read].
  set (st1 := sp_state (process st pre)) in *.
  rewrite processEvents_cons. unfold handleEvent. simpl.
  rewrite (visibility_exclusive _ Hvis).
  destruct (onMessageContents_last contents false st1) as (t & rt & Hlast);
    [eauto|].
  pose proof (onMessageContents_frame contents false st1) as Hf.
  simpl in Hf.
  destruct (onMessageContents st1 false contents) as [st2 out2]. simpl in *.
  destruct Hf as (Ha & _).
  assert (Hdone : lastMessageCompletesTurn agentConfig st2 = true).
  { unfold lastMessageCompletesTurn. rewrite Ha, Hvis, Hlast. simpl.
    apply String.eqb_refl. }
  rewrite Hdone. simpl. now repeat split.
Qed.

(** A usage snapshot is emitted only by an invocation that returns: the
    events of the loop, and so of an invocation that throws or is still
    running, are all messages; the events emitted before a provider error
    are kept. *)
Theorem no_usage_event_unless_returned (fuel iter : nat) (st : LoopState) :
  Forall isMessageEvent (lr_emitted (loop fuel iter st))
  /\ (forall agent e,
        JsObject.get agents (agentName st) = Some agent ->
        rs_throws (run w (S iter) agent (convertMsgsInput (turnMsgs st))) = Some e ->
        sp_control (process st
          (rs_events (run w (S iter) agent (convertMsgsInput (turnMsgs st)))))
          = NextEvent ->
        lr_outcome (loop (S fuel) iter st) = Thrown e
        /\ lr_emitted (loop (S fuel) iter st)
           = sp_emitted (process st
               (rs_events (run w (S iter) agent (convertMsgsInput (turnMsgs st)))))).
Proof.
  split; [apply turnLoop_usage|].
  intros agent e Hget Hthrows Hcontrol.
  rewrite turnLoop_S, Hget. cbv zeta. rewrite Hcontrol, Hthrows. now split.
Qed.

Lemma not_transfer_call (st : LoopState) (callId name arguments : string) :
  String.prefix "transfer_to" name = false ->
  ~ isTransferCall (EvMessage (AssistantMessageWithToolCalls
                                 [mkToolCall callId name arguments]
                                 (Some (agentName st)))).
Proof. intros Hp H. simpl in H. subst name. discriminate. Qed.

Lemma Paired_app (a b : list OutEvent) : Paired a -> Paired b -> Paired (a ++ b).
Proof.
  intros Ha Hb. induction Ha as [|e l He _ IH|id payload author l _ IH]; simpl.
  - exact Hb.
  - now constructor.
  - now constructor.
Qed.

Lemma onResponseOutputs_paired (outputs : list ResponseOutput) (st : LoopState) :
  Paired (onResponseOutputs st outputs).2.
Proof.
  revert st. induction outputs as [|o os IH]; intros st; simpl; [constructor|].
  destruct o as [callId name arguments|]; [|apply IH].
  unfold startsWith_transfer_to.
  destruct (String.prefix "transfer_to" name) eqn:Hp; simpl; [apply IH|].
  specialize (IH (push_emit st (AssistantMessageWithToolCalls
                    [mkToolCall callId name arguments] (Some (agentName st)))).1).
  destruct (onResponseOutputs _ os) as [st2 out2]. simpl in *.
  constructor; [now apply not_transfer_call|exact IH].
Qed.

Lemma onMessageContents_paired (contents : list MessageContent) (isInternal : bool)
    (st : LoopState) :
  Paired (onMessageContents st isInternal contents).2.
Proof.
  revert st. induction contents as [|c cs IH]; intros st; simpl; [constructor|].
  destruct c as [text|]; [|apply IH].
  specialize (IH (push_emit st (AssistantMessage text (Some (agentName st))
                    (if isInternal then internal_response
                     else external_response))).1).
  destruct (onMessageContents _ isInternal cs) as [st2 out2]. simpl in *.
  constructor; [intros H; exact H|exact IH].
Qed.

Lemma handleEvent_paired (st : LoopState) (event : StreamEvent) :
  Paired (handle st event).1.2.
Proof.
  destruct event as [data|name item|]; simpl; [| |constructor].
  - destruct data as [output usage|]; simpl; [|constructor].
    pose proof (onResponseOutputs_paired output st) as H.
    destruct (onResponseOutputs st output) as [st1 out1]. exact H.
  - destruct item as [target|status output callId nm| |status contents| |];
      simpl; try constructor.
    + destruct (String.eqb name "handoff_occurred"); [|constructor].
      destruct (String.eqb (agentName st) target); [constructor|].
      simpl. apply Paired_transfer. constructor.
    + destruct status, output; simpl; try constructor.
      * intros H; exact H.
      * constructor.
    + destruct status; simpl; try constructor.
      pose proof (onMessageContents_paired contents
                    (visibility_is agentConfig (agentName st) internal) st) as H.
      destruct (onMessageContents st _ contents) as [st1 out1]. simpl in H.
      destruct (visibility_is agentConfig (agentName st) internal); [|exact H].
      destruct (getNextAgentName (stack st1) workflow) as [next stack1]. simpl.
      apply Paired_app; [exact H|]. apply Paired_transfer. constructor.
Qed.

Lemma processEvents_paired (events : list StreamEvent) (st : LoopState) :
  Paired (sp_emitted (process st events)).
Proof.
  revert st. induction events as [|e es IH]; intros st; [constructor|].
  rewrite processEvents_cons. pose proof (handleEvent_paired st e) as H.
  destruct ((handle st e).2); [|exact H].
  cbv zeta. cbn [sp_emitted]. apply Paired_app; [exact H|apply IH].
Qed.

(** The transfer records of the loop always come as matched pairs: every
    [transfer_to_agent] call it emits is followed at once by its result,
    with the same call id and the same payload, and no other emitted
    message is a [transfer_to_agent] call: the function calls of the
    model whose names start with [transfer_to] are never recorded. *)
Theorem transfers_are_paired (fuel iter : nat) (st : LoopState) :
  Paired (lr_emitted (loop fuel iter st)).
Proof.
  revert iter st. induction fuel as [|fuel IH]; intros iter st; [constructor|].
  rewrite turnLoop_S.
  destruct (JsObject.get agents (agentName st)) as [agent|]; [|constructor].
  cbv zeta.
  set (result := run w (S iter) agent (convertMsgsInput (turnMsgs st))).
  pose proof (processEvents_paired (rs_events result) st) as Hp.
  assert (Hafter : Paired (lr_emitted (after (sp_emitted (process st (rs_events result)))
                     (sp_read (process st (rs_events result)))
                     (loop fuel (S iter) (sp_state (process st (rs_events result))))))).
  { unfold after. cbn [lr_emitted]. apply Paired_app; [exact Hp|apply IH]. }
  destruct (sp_control (process st (rs_events result))); [|exact Hafter].
  destruct (rs_throws result); [exact Hp|].
  destruct (lastMessageCompletesTurn agentConfig _); [exact Hp|exact Hafter].
Qed.

End StreamProperties.

Lemma user_facing_answer_completes_turn_witness :
  lr_outcome
    (turnLoop (Examples.world Scenarios.tool_provider) Examples.greeter_workflow
       (agentConfigOf Examples.greeter_workflow)
       (Examples.agents_of (Examples.world Scenarios.tool_provider)
          Examples.greeter_workflow)
       1 0 (initialState Examples.greeter_workflow Examples.hello))
  = TurnComplete.
Proof.
  refine (proj1 (user_facing_answer_completes_turn
                   (Examples.world Scenarios.tool_provider) Examples.greeter_workflow
                   (agentConfigOf Examples.greeter_workflow)
                   (Examples.agents_of (Examples.world Scenarios.tool_provider)
                      Examples.greeter_workflow)
                   0 0 (initialState Examples.greeter_workflow Examples.hello)
                   Scenarios.greeter_agent
                   [RawModelStreamEvent
                      (ResponseDone [FunctionCallOutput "call-1" "lookup" "{}"]
                                    (mkResponseUsage 12 9 3));
                    RunItemStreamEvent "tool_output"
                      (ToolCallOutputItem_functionCallResult completed
                         (TextOutput "42") "call-1" "lookup")]
                   "message_output_created" [OutputText "The answer is 42."]
                   "The answer is 42." _ _ _ _ _)).
  - vm_compute. reflexivity.
  - vm_compute. reflexivity.
  - vm_compute. reflexivity.
  - vm_compute. reflexivity.
  - now left.
Defined.
